(** * PersonaInsight: the tweet scraper's harvesting loop

    A shallow embedding of [src/server/Core/TweetScraper.py] (class
    [TwitterScraper]): the profile-address normalisation
    ([extract_username_from_url], [get_profile_url]), the identity
    resolution of a rendered post ([get_tweet_id]) and the bounded
    scan / scroll / dedup loop ([scrape_tweets]), together with
    [scrape_profile_info], and of the two request handlers of
    [src/server/Application/main.py] that run a session
    ([get_tweets_by_username], [get_tweets_by_url]).

    Python values are embedded as follows.
    - [str] is [string]; a character is a code point below 256.
    - [int] is [Z] for inputs and page heights; the three loop counters, which
      start at [0] and are only ever incremented or reset, are [nat].
    - [self.seen_tweets], a [set] of [str], is a [gset string].
    - The Selenium driver, the clock and the random generator are the
      environment: an abstract world [W] with one transition per call the
      source makes (record [Driver]).  A call either returns or raises one of
      the Selenium exception classes the source names.
    - Mutable state (the world, [self.seen_tweets] and the locals of
      [scrape_tweets]) is threaded through a state-and-exception monad [M].
    - [print] under [verbose] has no effect on any value and is left out. *)

From stdpp Require Import base decidable option list strings gmap.
From Stdlib Require Import ZArith Ascii String Lia.

Open Scope Z_scope.

(** ** Python string operations used by the scraper *)

Module PyStr.

(** [str.isspace] on code points below 256: tab to carriage return,
    the separators 0x1c to 0x1f, space, NEL (0x85) and NBSP (0xa0). *)
Definition is_space (c : ascii) : bool :=
  let n := nat_of_ascii c in
  (Nat.leb 9 n && Nat.leb n 13) || (Nat.leb 28 n && Nat.leb n 32)
  || Nat.eqb n 133 || Nat.eqb n 160.

(** [s.lstrip(chars)], with the stripped characters given by a predicate. *)
Fixpoint lstrip_by (p : ascii -> bool) (s : string) : string :=
  match s with
  | EmptyString => EmptyString
  | String c s' => if p c then lstrip_by p s' else s
  end.

(** [s.rstrip(chars)]. *)
Fixpoint rstrip_by (p : ascii -> bool) (s : string) : string :=
  match s with
  | EmptyString => EmptyString
  | String c s' =>
      match rstrip_by p s' with
      | EmptyString => if p c then EmptyString else String c EmptyString
      | r => String c r
      end
  end.

(** [s.strip()] *)
Definition strip (s : string) : string :=
  lstrip_by is_space (rstrip_by is_space s).

(** [s.lstrip('@')] *)
Definition lstrip_at (s : string) : string :=
  lstrip_by (Ascii.eqb "@") s.

(** [s.startswith(p)] *)
Fixpoint startswith (p s : string) : bool :=
  match p with
  | EmptyString => true
  | String a p' =>
      match s with
      | EmptyString => false
      | String b s' => Ascii.eqb a b && startswith p' s'
      end
  end.

(** [sub in s] *)
Fixpoint contains (sub s : string) : bool :=
  startswith sub s
  || match s with
     | EmptyString => false
     | String _ s' => contains sub s'
     end.

(** [s.replace(old, new)] for a non-empty [old]: occurrences are replaced
    left to right and do not overlap.  [skip] counts the characters of an
    occurrence that has just been replaced and are still to be dropped. *)
Fixpoint replace_from (old new : string) (skip : nat) (s : string) : string :=
  match s with
  | EmptyString => EmptyString
  | String c s' =>
      match skip with
      | S k => replace_from old new k s'
      | O =>
          if startswith old s
          then new +:+ replace_from old new (Nat.pred (String.length old)) s'
          else String c (replace_from old new O s')
      end
  end.

Definition replace (old new s : string) : string := replace_from old new O s.

(** [sep.join(parts)] *)
Definition join (sep : string) (parts : list string) : string :=
  String.concat sep parts.

(** [s[:n]] for a non-negative literal [n]. *)
Definition slice_to (n : nat) (s : string) : string := substring 0 n s.

(** Truthiness of a [str]: non-empty. *)
Definition truthy (s : string) : bool :=
  match s with EmptyString => false | String _ _ => true end.

(** [s.split(sep)[0]] for a one-character [sep]: the part before the first
    separator, or all of [s]. *)
Fixpoint split_head (sep : ascii) (s : string) : string :=
  match s with
  | EmptyString => EmptyString
  | String c s' => if Ascii.eqb c sep then EmptyString else String c (split_head sep s')
  end.

End PyStr.

(** ** The fragment of [re] the scraper uses

    A backtracking matcher in continuation-passing style, with the priorities
    of Python's [re]: an optional group is tried present first, an alternation
    left to right, a repetition longest first.  The patterns of the source
    have one capturing group; the continuation receives the rest of the
    subject and the text captured so far. *)

Module Re.

Inductive regex : Type :=
| Lit (s : string)                 (* a literal run of characters *)
| Seq (r1 r2 : regex)              (* r1 r2 *)
| Alt (r1 r2 : regex)              (* r1|r2 *)
| Opt (r : regex)                  (* (?:r)? *)
| Plus (cls : ascii -> bool)       (* [cls]+ *)
| Group (r : regex).               (* (r) *)

(** Drop the first [n] characters. *)
Fixpoint drop (n : nat) (s : string) : string :=
  match n, s with
  | O, _ => s
  | S _, EmptyString => EmptyString
  | S k, String _ s' => drop k s'
  end.

Definition orelse {A} (x y : option A) : option A :=
  match x with Some _ => x | None => y end.

(** [cls+], greedy: extend the run while it can, give characters back one
    at a time when the continuation fails. *)
Fixpoint plus {A} (cls : ascii -> bool) (s : string)
    (k : string -> option A) : option A :=
  match s with
  | EmptyString => None
  | String c s' => if cls c then orelse (plus cls s' k) (k s') else None
  end.

Fixpoint rmatch {A} (r : regex) (s : string) (cap : option string)
    (k : string -> option string -> option A) : option A :=
  match r with
  | Lit l => if PyStr.startswith l s then k (drop (String.length l) s) cap else None
  | Seq r1 r2 => rmatch r1 s cap (fun s' cap' => rmatch r2 s' cap' k)
  | Alt r1 r2 => orelse (rmatch r1 s cap k) (rmatch r2 s cap k)
  | Opt r1 => orelse (rmatch r1 s cap k) (k s cap)
  | Plus cls => plus cls s (fun s' => k s' cap)
  | Group r1 =>
      rmatch r1 s cap
        (fun s' _ => k s' (Some (substring 0 (String.length s - String.length s') s)))
  end.

(** [re.search(r, s)], reduced to what the source reads from the match
    object: [None] when nothing matches, else [group(1)] of the leftmost
    match. *)
Fixpoint search (r : regex) (s : string) : option (option string) :=
  match rmatch r s None (fun _ cap => Some cap) with
  | Some cap => Some cap
  | None =>
      match s with
      | EmptyString => None
      | String _ s' => search r s'
      end
  end.

Definition is_digit (c : ascii) : bool :=
  let n := nat_of_ascii c in Nat.leb 48 n && Nat.leb n 57.

End Re.

(** ** [extract_username_from_url] and [get_profile_url] (lines 41-95) *)

(** [[^\/?\s]] *)
Definition username_char (c : ascii) : bool :=
  negb (Ascii.eqb c "/" || Ascii.eqb c "?" || PyStr.is_space c).

(** [(?:https?:\/\/)?(?:www\.)?(?:twitter\.com|x\.com)\/([^\/?\s]+)] *)
Definition profile_url_re : Re.regex :=
  Re.Seq (Re.Opt (Re.Seq (Re.Lit "http") (Re.Seq (Re.Opt (Re.Lit "s")) (Re.Lit "://"))))
 (Re.Seq (Re.Opt (Re.Lit "www."))
 (Re.Seq (Re.Alt (Re.Lit "twitter.com") (Re.Lit "x.com"))
 (Re.Seq (Re.Lit "/")
         (Re.Group (Re.Plus username_char))))).

(** [/status/(\d+)] *)
Definition status_re : Re.regex :=
  Re.Seq (Re.Lit "/status/") (Re.Group (Re.Plus Re.is_digit)).

Definition extract_username_from_url (url : string) : string :=
  match Re.search profile_url_re url with
  | Some (Some g1) => PyStr.split_head "?" g1
  | _ => url
  end.

Definition get_profile_url (identifier : string) (is_url : bool) : string :=
  if is_url then
    let url := PyStr.strip identifier in
    if PyStr.startswith "http://" url || PyStr.startswith "https://" url then
      PyStr.replace "twitter.com" "x.com" url
    else if PyStr.startswith "x.com/" url || PyStr.startswith "twitter.com/" url then
      "https://" +:+ PyStr.replace "twitter.com" "x.com" url
    else if PyStr.contains "x.com/" url || PyStr.contains "twitter.com/" url then
      if negb (PyStr.startswith "https://" url) && negb (PyStr.startswith "http://" url)
      then "https://" +:+ PyStr.replace "twitter.com" "x.com" url
      else PyStr.replace "twitter.com" "x.com" url
    else
      let username := extract_username_from_url identifier in
      "https://x.com/" +:+ username
  else
    let username := PyStr.lstrip_at (PyStr.strip identifier) in
    "https://x.com/" +:+ username.

(** ** The environment: Selenium driver, clock and random generator *)

(** The exception classes of [selenium.common.exceptions] the source imports,
    and [WebDriverException] for any other failure of the automation
    backend. *)
Inductive exn : Type :=
| TimeoutException
| NoSuchElementException
| StaleElementReferenceException
| WebDriverException.

Inductive result (A : Type) : Type :=
| Ok (a : A)
| Raise (e : exn).
Arguments Ok {A} a.
Arguments Raise {A} e.

(** The XPath expressions of the source, by the marker they look for. *)
Inductive selector : Type :=
| ProtectedSpan     (* //span[contains(text(), "These posts are protected")] *)
| TweetArticle      (* //article[@data-testid="tweet"] *)
| StatusLink        (* .//a[contains(@href, "/status/")] *)
| TweetText         (* .//div[@data-testid="tweetText"] *)
| ShowMoreDiv       (* //div[contains(text(), "Show more")] *)
| PrimaryColumn     (* //div[@data-testid="primaryColumn"] *)
| FullnameSpan      (* //div[@data-testid="primaryColumn"]//span[contains(@class, "fullname")] *)
| UserDescription   (* //div[contains(@data-testid, "UserDescription")] *)
| FollowingLink     (* //a[contains(@href, "/following")]/span *)
| FollowersLink.    (* //a[contains(@href, "/followers")]/span *)

(** The JavaScript snippets handed to [execute_script]. *)
Inductive script : Type :=
| ScrollHeight           (* return document.body.scrollHeight *)
| ScrollToBottom         (* window.scrollTo(0, document.body.scrollHeight); *)
| ScrollTo (y : Z)       (* window.scrollTo(0, y); *)
| ScrollBy (dy : Z).     (* window.scrollBy(0, dy); *)

(** One field per call the scraper makes on its environment.  [W] is the state
    of the world (browser, remote feed, clock, random generator) and [E] the
    type of element handles.  Every driver call returns or raises, and moves
    the world.
    - [drv_get] is [driver.get(url)].
    - [drv_wait_presence] is
      [WebDriverWait(driver, 15).until(EC.presence_of_element_located(..))],
      raising [TimeoutException] when the marker does not show up.
    - [env_sleep] is [time.sleep]; how long is the environment's business.
    - [env_last_resort] yields the text of [{time.time()}_{random.randint(1000, 9999)}].
    - [env_random_position h] is
      [random.randint(int(h * 0.3), int(h * 0.7))]. *)
Record Driver (W E : Type) : Type := {
  drv_get : string -> W -> result unit * W;
  drv_wait_presence : selector -> W -> result E * W;
  drv_find_element : selector -> W -> result E * W;
  drv_find_elements : selector -> W -> result (list E) * W;
  drv_execute_script : script -> W -> result Z * W;
  el_find_element : E -> selector -> W -> result E * W;
  el_find_elements : E -> selector -> W -> result (list E) * W;
  el_get_attribute_href : E -> W -> result (option string) * W;
  el_text : E -> W -> result string * W;
  el_click : E -> W -> result unit * W;
  env_sleep : W -> W;
  env_last_resort : W -> string * W;
  env_random_position : Z -> W -> Z * W;
}.
Arguments drv_get {W E} _ _ _.
Arguments drv_wait_presence {W E} _ _ _.
Arguments drv_find_element {W E} _ _ _.
Arguments drv_find_elements {W E} _ _ _.
Arguments drv_execute_script {W E} _ _ _.
Arguments el_find_element {W E} _ _ _ _.
Arguments el_find_elements {W E} _ _ _ _.
Arguments el_get_attribute_href {W E} _ _ _.
Arguments el_text {W E} _ _ _.
Arguments el_click {W E} _ _ _.
Arguments env_sleep {W E} _ _.
Arguments env_last_resort {W E} _ _.
Arguments env_random_position {W E} _ _ _.

(** ** Program state and the monad of the scraper *)

(** The world, the one instance attribute the scraper mutates
    ([self.seen_tweets]) and the locals of [scrape_tweets].  Before
    [scrape_tweets] binds a local its field holds whatever the state was built
    with; the source cannot read it there. *)
Record state (W : Type) : Type := mkState {
  world : W;
  seen_tweets : gset string;
  tweets : list string;
  last_height : Z;
  no_new_tweets_count : nat;
  consecutive_failed_scrolls : nat;
  scroll_count : nat;
}.
Arguments mkState {W} _ _ _ _ _ _ _.
Arguments world {W} _.
Arguments seen_tweets {W} _.
Arguments tweets {W} _.
Arguments last_height {W} _.
Arguments no_new_tweets_count {W} _.
Arguments consecutive_failed_scrolls {W} _.
Arguments scroll_count {W} _.

Section Monad.
Context {W : Type}.

Definition set_world (w : W) (s : state W) : state W :=
  mkState w (seen_tweets s) (tweets s) (last_height s)
          (no_new_tweets_count s) (consecutive_failed_scrolls s) (scroll_count s).
Definition set_seen_tweets (x : gset string) (s : state W) : state W :=
  mkState (world s) x (tweets s) (last_height s)
          (no_new_tweets_count s) (consecutive_failed_scrolls s) (scroll_count s).
Definition set_tweets (x : list string) (s : state W) : state W :=
  mkState (world s) (seen_tweets s) x (last_height s)
          (no_new_tweets_count s) (consecutive_failed_scrolls s) (scroll_count s).
Definition set_last_height (x : Z) (s : state W) : state W :=
  mkState (world s) (seen_tweets s) (tweets s) x
          (no_new_tweets_count s) (consecutive_failed_scrolls s) (scroll_count s).
Definition set_no_new_tweets_count (x : nat) (s : state W) : state W :=
  mkState (world s) (seen_tweets s) (tweets s) (last_height s)
          x (consecutive_failed_scrolls s) (scroll_count s).
Definition set_consecutive_failed_scrolls (x : nat) (s : state W) : state W :=
  mkState (world s) (seen_tweets s) (tweets s) (last_height s)
          (no_new_tweets_count s) x (scroll_count s).
Definition set_scroll_count (x : nat) (s : state W) : state W :=
  mkState (world s) (seen_tweets s) (tweets s) (last_height s)
          (no_new_tweets_count s) (consecutive_failed_scrolls s) x.

(** A computation reads and writes the state and returns or raises. *)
Definition M (A : Type) : Type := state W -> result A * state W.

Definition ret {A} (a : A) : M A := fun s => (Ok a, s).

Definition raise {A} (e : exn) : M A := fun s => (Raise e, s).

Definition bind {A B} (m : M A) (k : A -> M B) : M B :=
  fun s =>
    match m s with
    | (Ok a, s') => k a s'
    | (Raise e, s') => (Raise e, s')
    end.

Definition get_state : M (state W) := fun s => (Ok s, s).

Definition modify (f : state W -> state W) : M unit := fun s => (Ok tt, f s).

(** [try: m  except <classes>: h]: state changes made before the exception
    stay. *)
Definition try_except {A} (m : M A) (classes : exn -> bool) (h : M A) : M A :=
  fun s =>
    match m s with
    | (Ok a, s') => (Ok a, s')
    | (Raise e, s') => if classes e then h s' else (Raise e, s')
    end.

(** A call on the environment: only the world moves. *)
Definition call {A} (op : W -> result A * W) : M A :=
  fun s => let '(r, w) := op (world s) in (r, set_world w s).

(** A call on the environment that cannot raise. *)
Definition ask {A} (op : W -> A * W) : M A :=
  fun s => let '(a, w) := op (world s) in (Ok a, set_world w s).

End Monad.
Arguments M : clear implicits.

Declare Scope scraper_scope.
Delimit Scope scraper_scope with scraper.
Notation "x <- m ;; k" := (bind m (fun x => k))
  (at level 100, m at next level, right associativity) : scraper_scope.
Notation "m ;; k" := (bind m (fun _ => k))
  (at level 100, right associativity) : scraper_scope.
Open Scope scraper_scope.

(** [except (NoSuchElementException, StaleElementReferenceException)] *)
Definition element_gone (e : exn) : bool :=
  match e with
  | NoSuchElementException | StaleElementReferenceException => true
  | _ => false
  end.
Definition is_stale (e : exn) : bool :=
  match e with StaleElementReferenceException => true | _ => false end.
Definition is_timeout (e : exn) : bool :=
  match e with TimeoutException => true | _ => false end.
Definition is_no_such (e : exn) : bool :=
  match e with NoSuchElementException => true | _ => false end.
(** A bare [except:] and [except Exception]. *)
Definition any_exception (e : exn) : bool := true.

(** How an iteration of the main loop ends. *)
Inductive control : Type :=
| Continue          (* the end of the body, or [continue] *)
| BreakTarget       (* [break], line 272: enough tweets *)
| BreakStalled.     (* [break], line 280: too many consecutive failures *)

(** How the main loop ends.  [FuelOut] belongs to the model alone: the loop is
    a recursion on a bound on the number of iterations, and [while_loop_fuel]
    shows that room for more than [max_scroll_attempts] of them changes
    nothing. *)
Inductive loop_exit : Type :=
| CondFalse
| Broke (c : control)
| FuelOut.

Definition max_no_new_tweets : nat := 5.
Definition max_consecutive_failures : nat := 8.
Definition max_scroll_attempts : nat := 50.
Arguments max_no_new_tweets : simpl never.
Arguments max_consecutive_failures : simpl never.
Arguments max_scroll_attempts : simpl never.

(** [l[:n]] for a Python [int] [n]: a negative [n] counts from the end. *)
Definition py_slice_to {A} (n : Z) (l : list A) : list A :=
  if n <? 0 then firstn (Z.to_nat (Z.of_nat (List.length l) + n)) l
  else firstn (Z.to_nat n) l.

(** ** The scraper (class [TwitterScraper]) *)

Section Scraper.
Context {W E : Type} (drv : Driver W E).

(** [time.sleep(..)] *)
Definition sleep : M W unit :=
  fun s => (Ok tt, set_world (env_sleep drv (world s)) s).

(** [[part.text for part in parts]]: the texts in order; the first read
    that raises ends the comprehension. *)
Fixpoint element_texts (parts : list E) : M W (list string) :=
  match parts with
  | [] => ret []
  | part :: rest =>
      t <- call (el_text drv part) ;;
      ts <- element_texts rest ;;
      ret (t :: ts)
  end.

(** [get_tweet_id] (lines 97-129): the number in the post's status link,
    else the first 50 characters of its text, else a time-and-random key. *)
Definition get_tweet_id (tweet_element : E) : M W string :=
  by_link <-
    try_except
      (tweet_link <- call (el_find_element drv tweet_element StatusLink) ;;
       href <- call (el_get_attribute_href drv tweet_link) ;;
       match href with
       | Some h =>
           if PyStr.truthy h then
             match Re.search status_re h with
             | Some (Some g1) => ret (Some g1)
             | _ => ret None
             end
           else ret None
       | None => ret None
       end)
      element_gone (ret None) ;;
  match by_link with
  | Some tweet_id => ret tweet_id
  | None =>
      by_text <-
        try_except
          (text_parts <- call (el_find_elements drv tweet_element TweetText) ;;
           texts <- element_texts text_parts ;;
           let text := PyStr.join " " texts in
           if PyStr.truthy text then ret (Some (PyStr.slice_to 50 text)) else ret None)
          element_gone (ret None) ;;
      match by_text with
      | Some tweet_id => ret tweet_id
      | None =>
          suffix <- ask (env_last_resort drv) ;;
          ret ("tweet_" +:+ suffix)
      end
  end.

(** [perform_scroll] (lines 131-145) *)
Definition perform_scroll (distance : option Z) : M W unit :=
  match distance with
  | Some d =>
      if d =? 0 then call (drv_execute_script drv ScrollToBottom) ;; sleep
      else call (drv_execute_script drv (ScrollBy d)) ;; sleep
  | None => call (drv_execute_script drv ScrollToBottom) ;; sleep
  end.

(** The body of [for tweet in tweet_elements] (lines 222-248); the value is
    [true] when the body ends in [break]. *)
Definition process_tweet (num_tweets : Z) (tweet : E) : M W bool :=
  try_except
    (tweet_id <- get_tweet_id tweet ;;
     s <- get_state ;;
     if bool_decide (tweet_id ∈ seen_tweets s) then ret false
     else
       modify (fun s => set_seen_tweets ({[tweet_id]} ∪ seen_tweets s) s) ;;
       tweet_text_parts <- call (el_find_elements drv tweet TweetText) ;;
       texts <- element_texts tweet_text_parts ;;
       let full_text := PyStr.join " " texts in
       if PyStr.truthy full_text then
         modify (fun s => set_tweets (tweets s ++ [full_text]) s) ;;
         s <- get_state ;;
         if num_tweets <=? Z.of_nat (List.length (tweets s)) then ret true else ret false
       else ret false)
    element_gone (ret false).

(** [for tweet in tweet_elements: ..] (lines 221-248) *)
Fixpoint for_tweets (num_tweets : Z) (tweet_elements : list E) : M W unit :=
  match tweet_elements with
  | [] => ret tt
  | tweet :: rest =>
      broke <- process_tweet num_tweets tweet ;;
      if broke then ret tt else for_tweets num_tweets rest
  end.

(** The [try] block of the loop body (lines 215-254): [Some tweets_before]
    when the block completes, [None] when [find_elements] raised a
    staleness error and the iteration is abandoned by [continue]. *)
Definition scan_tweets (num_tweets : Z) : M W (option nat) :=
  try_except
    (tweet_elements <- call (drv_find_elements drv TweetArticle) ;;
     s <- get_state ;;
     let tweets_before := List.length (tweets s) in
     for_tweets num_tweets tweet_elements ;;
     ret (Some tweets_before))
    is_stale
    (sleep ;; ret None).

(** Lines 259-268. *)
Definition update_counters (new_tweets_count : Z) : M W unit :=
  if new_tweets_count =? 0 then
    modify (fun s =>
      set_consecutive_failed_scrolls (S (consecutive_failed_scrolls s))
        (set_no_new_tweets_count (S (no_new_tweets_count s)) s))
  else
    modify (fun s =>
      set_consecutive_failed_scrolls O (set_no_new_tweets_count O s)).

(** [for button in show_more_buttons[:2]] (lines 304-309) *)
Fixpoint click_buttons (buttons : list E) : M W unit :=
  match buttons with
  | [] => ret tt
  | button :: rest =>
      try_except (call (el_click drv button) ;; sleep) any_exception (ret tt) ;;
      click_buttons rest
  end.

(** Lines 284-313. *)
Definition alternative_strategy : M W unit :=
  page_height <- call (drv_execute_script drv ScrollHeight) ;;
  random_position <- ask (env_random_position drv page_height) ;;
  call (drv_execute_script drv (ScrollTo random_position)) ;;
  sleep ;;
  call (drv_execute_script drv (ScrollBy (-300))) ;;
  sleep ;;
  call (drv_execute_script drv (ScrollBy 600)) ;;
  sleep ;;
  try_except
    (show_more_buttons <- call (drv_find_elements drv ShowMoreDiv) ;;
     click_buttons (firstn 2 show_more_buttons))
    any_exception (ret tt) ;;
  modify (set_no_new_tweets_count O).

(** Lines 315-319. *)
Definition regular_strategy : M W unit :=
  perform_scroll None ;;
  sleep.

(** Lines 321-327. *)
Definition check_page_height : M W unit :=
  new_height <- call (drv_execute_script drv ScrollHeight) ;;
  s <- get_state ;;
  (if new_height =? last_height s
   then call (drv_execute_script drv (ScrollBy 400)) ;; sleep
   else ret tt) ;;
  modify (set_last_height new_height).

(** The rest of the body once the counters are updated (lines 270-327):
    the two [break] tests, then a scroll by one of the two strategies. *)
Definition finish_iteration (num_tweets : Z) : M W control :=
  s <- get_state ;;
  if num_tweets <=? Z.of_nat (List.length (tweets s)) then ret BreakTarget
  else if Nat.leb max_consecutive_failures (consecutive_failed_scrolls s)
  then ret BreakStalled
  else
    (if Nat.leb max_no_new_tweets (no_new_tweets_count s)
     then alternative_strategy
     else regular_strategy) ;;
    check_page_height ;;
    ret Continue.

(** The body of the [while] loop (lines 209-327). *)
Definition loop_body (num_tweets : Z) : M W control :=
  modify (fun s => set_scroll_count (S (scroll_count s)) s) ;;
  scanned <- scan_tweets num_tweets ;;
  match scanned with
  | None => ret Continue
  | Some tweets_before =>
      s <- get_state ;;
      let new_tweets_count :=
        Z.of_nat (List.length (tweets s)) - Z.of_nat tweets_before in
      update_counters new_tweets_count ;;
      finish_iteration num_tweets
  end.

(** [while len(tweets) < num_tweets and scroll_count < max_scroll_attempts]
    (line 208), run for at most [fuel] iterations: [FuelOut] says the
    condition still held after [fuel] of them. *)
Fixpoint while_loop (fuel : nat) (num_tweets : Z) : M W loop_exit :=
  s <- get_state ;;
  if (Z.of_nat (List.length (tweets s)) <? num_tweets)
     && Nat.ltb (scroll_count s) max_scroll_attempts
  then
    match fuel with
    | O => ret FuelOut
    | S fuel' =>
        c <- loop_body num_tweets ;;
        match c with
        | Continue => while_loop fuel' num_tweets
        | _ => ret (Broke c)
        end
    end
  else ret CondFalse.

(** Lines 195-201: the locals of the loop. *)
Definition init_loop : M W unit :=
  h <- call (drv_execute_script drv ScrollHeight) ;;
  modify (fun s =>
    set_scroll_count O
      (set_consecutive_failed_scrolls O
         (set_no_new_tweets_count O (set_last_height h s)))).

(** The main loop with its locals (lines 194-327). *)
Definition collect (fuel : nat) (num_tweets : Z) : M W loop_exit :=
  init_loop ;;
  while_loop fuel num_tweets.

(** Lines 194-336: the main loop and the [return] after it. *)
Definition collect_and_return (fuel : nat) (num_tweets : Z)
    : M W (option (list string)) :=
  collect fuel num_tweets ;;
  s <- get_state ;;
  ret (Some (py_slice_to num_tweets (tweets s))).

(** [scrape_tweets] with the bound on iterations as a parameter.  The value
    is [None] for a private profile, else the list of texts.  A
    [WebElement] is always true, so [if private_element:] is taken whenever
    the wait returns. *)
Definition scrape_tweets_upto (fuel : nat) (identifier : string) (is_url : bool)
    (num_tweets : Z) (verbose : bool) : M W (option (list string)) :=
  let url := get_profile_url identifier is_url in
  call (drv_get drv url) ;;
  is_private <-
    try_except
      (private_element <- call (drv_wait_presence drv ProtectedSpan) ;;
       ret true)
      is_timeout (ret false) ;;
  if is_private : bool then ret None
  else
    modify (fun s => set_seen_tweets ∅ (set_tweets [] s)) ;;
    loaded <-
      try_except
        (call (drv_wait_presence drv TweetArticle) ;; ret true)
        is_timeout (ret false) ;;
    if loaded : bool then collect_and_return fuel num_tweets
    else ret (Some []).

(** [scrape_tweets] (lines 147-336). *)
Definition scrape_tweets : string -> bool -> Z -> bool -> M W (option (list string)) :=
  scrape_tweets_upto max_scroll_attempts.

(** The dictionary [profile_data] of [scrape_profile_info]. *)
Record profile_data : Type := mkProfile {
  username : string;
  display_name : string;
  bio : string;
  location : string;
  website : string;
  join_date : string;
  following_count : string;
  followers_count : string;
  is_private : bool;
}.

(** [try: x = driver.find_element(sel); .. x.text  except NoSuchElementException: pass] *)
Definition find_text (sel : selector) : M W (option string) :=
  try_except
    (e <- call (drv_find_element drv sel) ;;
     t <- call (el_text drv e) ;;
     ret (Some t))
    is_no_such (ret None).

Definition or_empty (o : option string) : string :=
  match o with Some t => t | None => EmptyString end.

(** [scrape_profile_info] (lines 338-412): [None] when the profile is not
    found. *)
Definition scrape_profile_info (identifier : string) (is_url : bool)
    : M W (option profile_data) :=
  let url := get_profile_url identifier is_url in
  call (drv_get drv url) ;;
  try_except
    (try_except
       (call (drv_wait_presence drv PrimaryColumn) ;;
        let uname :=
          if is_url then extract_username_from_url identifier
          else PyStr.lstrip_at (PyStr.strip identifier) in
        private <-
          try_except
            (private_element <- call (drv_find_element drv ProtectedSpan) ;;
             ret true)
            is_no_such (ret false) ;;
        name <- find_text FullnameSpan ;;
        description <- find_text UserDescription ;;
        following <- find_text FollowingLink ;;
        followers <- find_text FollowersLink ;;
        ret (Some (mkProfile uname (or_empty name) (or_empty description)
                     EmptyString EmptyString EmptyString
                     (or_empty following) (or_empty followers) private)))
       is_timeout (ret None))
    any_exception (ret None).

End Scraper.
Arguments scrape_tweets {W E} drv _ _ _ _ : simpl never.

(** The state in which a method of the scraper is entered: the world, the
    attribute [self.seen_tweets] as earlier calls left it, no local bound. *)
Definition entry {W} (w : W) (seen : gset string) : state W :=
  mkState w seen [] 0 O O O.

(** ** What one pass of the [for] body does to the session

    Three cases: the rendered post is skipped (already seen, or its identity
    could not be read), it is marked as seen but nothing is appended (no
    text, or its text could not be read), or it is marked and its text
    appended. *)
Inductive tweet_step {W} (num_tweets : Z) (s : state W)
    : result bool -> state W -> Prop :=
| step_skip r w :
    r <> Ok true ->
    tweet_step num_tweets s r (set_world w s)
| step_mark r w tweet_id :
    tweet_id ∉ seen_tweets s ->
    r <> Ok true ->
    tweet_step num_tweets s r
      (set_world w (set_seen_tweets ({[tweet_id]} ∪ seen_tweets s) s))
| step_collect w tweet_id full_text :
    tweet_id ∉ seen_tweets s ->
    PyStr.truthy full_text = true ->
    tweet_step num_tweets s
      (Ok (num_tweets <=? Z.of_nat (List.length (tweets s ++ [full_text]))))
      (set_world w
         (set_tweets (tweets s ++ [full_text])
            (set_seen_tweets ({[tweet_id]} ∪ seen_tweets s) s))).

(** Only the world differs. *)
Definition world_only {W} (s s' : state W) : Prop :=
  s' = set_world (world s') s.

(** What the scan of an iteration may change: the world, the seen set, which
    grows, and the collected texts, which are extended by at most as many
    items as identities were added. *)
Record scan_rel {W} (s s' : state W) : Prop := {
  scan_seen : seen_tweets s ⊆ seen_tweets s';
  scan_tweets_prefix : exists new, tweets s' = tweets s ++ new
      /\ (List.length new + size (seen_tweets s) <= size (seen_tweets s'))%nat;
  scan_last_height : last_height s' = last_height s;
  scan_no_new : no_new_tweets_count s' = no_new_tweets_count s;
  scan_consecutive : consecutive_failed_scrolls s' = consecutive_failed_scrolls s;
  scan_scroll_count : scroll_count s' = scroll_count s;
}.

(** What the scroll at the end of an iteration may change: the world, the
    last page height and [no_new_tweets_count]. *)
Record advance_rel {W} (s s' : state W) : Prop := {
  adv_seen : seen_tweets s' = seen_tweets s;
  adv_tweets : tweets s' = tweets s;
  adv_consecutive : consecutive_failed_scrolls s' = consecutive_failed_scrolls s;
  adv_scroll_count : scroll_count s' = scroll_count s;
}.

(** The collected texts are fewer than, or at most, the requested number. *)
Definition below {W} (num_tweets : Z) (s : state W) : Prop :=
  Z.of_nat (List.length (tweets s)) < num_tweets.
Definition at_most {W} (num_tweets : Z) (s : state W) : Prop :=
  Z.of_nat (List.length (tweets s)) <= num_tweets.

(** How the [try] block of an iteration ends: abandoned on a stale page,
    completed, or left by an exception no handler takes. *)
Inductive scan_outcome {W} (num_tweets : Z) (s : state W)
    : result (option nat) -> state W -> Prop :=
| scan_stale s' :
    world_only s s' ->
    scan_outcome num_tweets s (Ok None) s'
| scan_done s' :
    scan_rel s s' ->
    (below num_tweets s -> at_most num_tweets s') ->
    scan_outcome num_tweets s (Ok (Some (List.length (tweets s)))) s'
| scan_raised e s' :
    scan_rel s s' ->
    (below num_tweets s -> at_most num_tweets s') ->
    scan_outcome num_tweets s (Raise e) s'.

(** What a session keeps from one observation point to a later one: the seen
    set and the collected texts grow, each new text with an identity of its
    own, and [scroll_count] does not decrease. *)
Record session_rel {W} (s s' : state W) : Prop := {
  sess_seen : seen_tweets s ⊆ seen_tweets s';
  sess_tweets : exists new, tweets s' = tweets s ++ new
      /\ (List.length new + size (seen_tweets s) <= size (seen_tweets s'))%nat;
  sess_scroll_count : (scroll_count s <= scroll_count s')%nat;
}.

(** The seen set has at least as many identities as texts were collected. *)
Definition seen_covers {W} (s : state W) : Prop :=
  (List.length (tweets s) <= size (seen_tweets s))%nat.

(** What holds each time the condition of the [while] loop is evaluated. *)
Record loop_inv {W} (num_tweets : Z) (s : state W) : Prop := {
  inv_tweets : at_most (Z.max 0 num_tweets) s;
  inv_consecutive : (consecutive_failed_scrolls s < max_consecutive_failures)%nat;
  inv_scroll_count : (scroll_count s <= max_scroll_attempts)%nat;
}.

(** One iteration of the main loop, from the state [s] in which the body is
    entered to the state [s'] in which it ends with outcome [r]. *)
Record iteration {W} (num_tweets : Z) (s : state W) (r : result control)
    (s' : state W) : Prop := {
  it_scroll_count : scroll_count s' = S (scroll_count s);
  it_seen : seen_tweets s ⊆ seen_tweets s';
  it_tweets : exists new, tweets s' = tweets s ++ new
      /\ (List.length new + size (seen_tweets s) <= size (seen_tweets s'))%nat
      /\ ((consecutive_failed_scrolls s' = consecutive_failed_scrolls s
            /\ (new = [] \/ exists e, r = Raise e))
          \/ (new = []
              /\ consecutive_failed_scrolls s' = S (consecutive_failed_scrolls s))
          \/ (new <> [] /\ consecutive_failed_scrolls s' = O));
  it_bound : below num_tweets s -> at_most num_tweets s';
  it_exit :
    match r with
    | Ok Continue =>
        below num_tweets s ->
        (consecutive_failed_scrolls s < max_consecutive_failures)%nat ->
        below num_tweets s'
        /\ (consecutive_failed_scrolls s' < max_consecutive_failures)%nat
    | Ok BreakTarget => num_tweets <= Z.of_nat (List.length (tweets s'))
    | Ok BreakStalled =>
        below num_tweets s'
        /\ (max_consecutive_failures <= consecutive_failed_scrolls s')%nat
    | Raise _ => True
    end;
}.

(** What is known when the main loop, entered in [s] with room for [fuel]
    iterations, ends in [s'] with outcome [r]. *)
Definition loop_end {W} (num_tweets : Z) (fuel : nat) (s : state W)
    (r : result loop_exit) (s' : state W) : Prop :=
  match r with
  | Ok CondFalse =>
      (consecutive_failed_scrolls s' < max_consecutive_failures)%nat
      /\ (num_tweets <= Z.of_nat (List.length (tweets s'))
          \/ scroll_count s' = max_scroll_attempts)
  | Ok (Broke BreakTarget) => num_tweets <= Z.of_nat (List.length (tweets s'))
  | Ok (Broke BreakStalled) =>
      consecutive_failed_scrolls s' = max_consecutive_failures
      /\ below num_tweets s'
  | Ok (Broke Continue) => False
  | Ok FuelOut =>
      scroll_count s' = (scroll_count s + fuel)%nat
      /\ (scroll_count s' < max_scroll_attempts)%nat
      /\ (consecutive_failed_scrolls s' < max_consecutive_failures)%nat
      /\ below num_tweets s'
  | Raise _ => True
  end.

(** Why the main loop, given room for [max_scroll_attempts] iterations, has
    stopped in [s']. *)
Definition stopped {W} (num_tweets : Z) (ex : loop_exit) (s' : state W) : Prop :=
  match ex with
  | CondFalse =>
      num_tweets <= Z.of_nat (List.length (tweets s'))
      \/ scroll_count s' = max_scroll_attempts
  | Broke BreakTarget => num_tweets <= Z.of_nat (List.length (tweets s'))
  | Broke BreakStalled => consecutive_failed_scrolls s' = max_consecutive_failures
  | Broke Continue | FuelOut => False
  end.

(** The handler of the [for] body,
    [except (NoSuchElementException, StaleElementReferenceException): continue],
    applied to an exception [e] raised in state [s]. *)
Definition absorb {W} (e : exn) (s : state W) : result bool * state W :=
  if element_gone e then (Ok false, s) else (Raise e, s).

(** Every step of a computation is within a relation on states. *)
Definition within {W A} (R : state W -> state W -> Prop) (m : M W A) : Prop :=
  forall s, R s (m s).2.

(** Pre- and postcondition; the postcondition reads the outcome. *)
Definition hoare {W A} (P : state W -> Prop) (m : M W A)
    (Q : result A -> state W -> Prop) : Prop :=
  forall s, P s -> Q (m s).1 (m s).2.

(** ** A scripted driver

    A deterministic mock of the environment, for running the scraper on
    concrete feeds.  The world holds the outcome of navigation, whether the
    privacy marker and the page markers are present, the successive results of
    enumerating the rendered posts, and the log of the calls made so far. *)
Module Mock.

Inductive element : Type :=
| Article (href : option string) (parts : list string)
| Anchor (href : string)
| TextPart (text : string)
| Marker.

Inductive event : Type :=
| EvGet (url : string)
| EvWait (sel : selector)
| EvFind (sel : selector)
| EvScript (js : script)
| EvElement
| EvSleep
| EvRandom.

Record world : Type := mkWorld {
  nav : result unit;
  protected : bool;
  loads : bool;
  feed : list (result (list element));
  log : list event;
}.

Definition logged (ev : event) (w : world) : world :=
  mkWorld (nav w) (protected w) (loads w) (feed w) (log w ++ [ev]).

Definition next_render (w : world) : result (list element) * world :=
  match feed w with
  | [] => (Ok [], w)
  | r :: rest => (r, mkWorld (nav w) (protected w) (loads w) rest (log w))
  end.

Definition driver : Driver world element := {|
  drv_get url w := (nav w, logged (EvGet url) w);
  drv_wait_presence sel w :=
    (match sel with
     | ProtectedSpan => if protected w then Ok Marker else Raise TimeoutException
     | _ => if loads w then Ok Marker else Raise TimeoutException
     end, logged (EvWait sel) w);
  drv_find_element sel w :=
    (match sel with
     | ProtectedSpan => if protected w then Ok Marker else Raise NoSuchElementException
     | _ => Raise NoSuchElementException
     end, logged (EvFind sel) w);
  drv_find_elements sel w :=
    match sel with
    | TweetArticle => next_render (logged (EvFind sel) w)
    | _ => (Ok [], logged (EvFind sel) w)
    end;
  drv_execute_script js w := (Ok 0, logged (EvScript js) w);
  el_find_element e sel w :=
    (match e, sel with
     | Article (Some h) _, StatusLink => Ok (Anchor h)
     | _, _ => Raise NoSuchElementException
     end, logged EvElement w);
  el_find_elements e sel w :=
    (match e, sel with
     | Article _ parts, TweetText => Ok (map TextPart parts)
     | _, _ => Ok []
     end, logged EvElement w);
  el_get_attribute_href e w :=
    (match e with Anchor h => Ok (Some h) | _ => Ok None end, logged EvElement w);
  el_text e w :=
    (match e with TextPart t => Ok t | _ => Ok EmptyString end, logged EvElement w);
  el_click e w := (Ok tt, logged EvElement w);
  env_sleep w := logged EvSleep w;
  env_last_resort w := ("0.0_1000"%string, logged EvRandom w);
  env_random_position h w := (0, logged EvRandom w);
|}.

(** A public profile whose page loads, rendering the given results in
    turn. *)
Definition public (renders : list (result (list element))) : world :=
  mkWorld (Ok tt) false true renders [].

(** A post with a status link (identity [n]) and one block of text. *)
Definition post (n text : string) : element :=
  Article (Some ("https://x.com/u/status/" +:+ n)) [text].

End Mock.

(** The shapes of profile URL the resolver tells apart, each with the prefix
    of the address it produces: with a scheme, which is kept, or without one,
    and with or without [www.]. *)
Definition host_forms : list (string * string) :=
  [("https://", "https://"); ("http://", "http://"); ("", "https://");
   ("https://www.", "https://www."); ("http://www.", "http://www.");
   ("www.", "https://www.")]%string.

(** ** Concrete sessions on the scripted driver *)

(** A private profile. *)
Definition private_profile : Mock.world :=
  Mock.mkWorld (Ok tt) true true [Ok [Mock.post "1" "secret"]] [].

(** A profile to which navigation fails: [driver.get] raises. *)
Definition unreachable_profile : Mock.world :=
  Mock.mkWorld (Raise TimeoutException) false false [] [].

(** A page on which no marker ever shows up. *)
Definition blank_page : Mock.world :=
  Mock.mkWorld (Ok tt) false false [] [].

(** A session on the scripted driver: up to [fuel] iterations for ten tweets
    of user [jack], from a fresh scraper. *)
Definition session (fuel : nat) (w : Mock.world) : result (option (list string)) * state Mock.world :=
  scrape_tweets_upto Mock.driver fuel "jack" false 10 false (entry w ∅).

(** One post is rendered, with no text yet. *)
Definition empty_text_feed : Mock.world :=
  Mock.public [Ok [Mock.post "1" ""]].

(** The first render has a post without text, the second the same post with
    its text and a new one. *)
Definition late_text_feed : Mock.world :=
  Mock.public [Ok [Mock.post "1" ""];
               Ok [Mock.post "1" "late text"; Mock.post "2" "hello"]].

(** The first enumeration of the posts raises a staleness error. *)
Definition stale_feed : Mock.world :=
  Mock.public [Raise StaleElementReferenceException].

(** One render with two posts, and nothing new ever after. *)
Definition drying_feed : Mock.world :=
  Mock.public [Ok [Mock.post "1" "a"; Mock.post "2" "b"]].

(** The same three posts are rendered by five scans in a row, then a fourth
    one shows up. *)
Definition rerendering_feed : Mock.world :=
  let three := [Mock.post "1" "a"; Mock.post "2" "b"; Mock.post "3" "c"] in
  Mock.public [Ok three; Ok three; Ok three; Ok three; Ok three;
               Ok (three ++ [Mock.post "4" "d"])].

(** ** Vocabulary for the properties of strings and patterns *)






(** ** Vocabulary for the properties of a session *)

(** A text is not empty. *)
Definition nonempty (t : string) : Prop := PyStr.truthy t = true.

(** No step introduces an empty text among the collected ones. *)
Definition keeps_texts {W} (s s' : state W) : Prop :=
  Forall nonempty (tweets s) -> Forall nonempty (tweets s').


(** Both stall counters are kept. *)
Definition counters_kept {W} (s s' : state W) : Prop :=
  no_new_tweets_count s' = no_new_tweets_count s
  /\ consecutive_failed_scrolls s' = consecutive_failed_scrolls s.


(** [P] holds of the value whenever the computation returns. *)
Definition yields {W A} (P : A -> Prop) (m : M W A) : Prop :=
  forall s, match (m s).1 with Ok a => P a | Raise _ => True end.


(** The computation returns, whatever the state. *)
Definition returns {W A} (m : M W A) : Prop :=
  forall s, exists a, (m s).1 = Ok a.

(** A page that answers every enumeration of the posts with [render], has
    no other element, and on which no other call fails. *)
Definition fixed_driver (render : result (list unit)) : Driver unit unit := {|
  drv_get _ w := (Ok tt, w);
  drv_wait_presence sel w :=
    (match sel with ProtectedSpan => Raise TimeoutException | _ => Ok tt end, w);
  drv_find_element _ w := (Raise NoSuchElementException, w);
  drv_find_elements sel w :=
    (match sel with TweetArticle => render | _ => Ok [] end, w);
  drv_execute_script _ w := (Ok 0, w);
  el_find_element _ _ w := (Raise NoSuchElementException, w);
  el_find_elements _ _ w := (Ok [], w);
  el_get_attribute_href _ w := (Ok None, w);
  el_text _ w := (Ok EmptyString, w);
  el_click _ w := (Ok tt, w);
  env_sleep w := w;
  env_last_resort w := ("0.0_1000"%string, w);
  env_random_position _ w := (0, w);
|}.

(** ** Drivers whose failures the scraper handles *)

(** The computation raises only exceptions of the given classes. *)
Definition raises_only {W A} (classes : exn -> bool) (m : M W A) : Prop :=
  forall s e, (m s).1 = Raise e -> classes e = true.

(** Every exception the driver raises is one the scraper handles at the
    place of the call: navigation and scripts do not fail, a wait fails by
    timing out, the enumeration of the posts by going stale, and a call on
    an element by the element being gone.  Clicks and the search for
    [Show more] are under a catch-all and may fail in any way. *)
Record handled {W E} (drv : Driver W E) : Prop := {
  handled_get : forall url w, (drv_get drv url w).1 = Ok tt;
  handled_wait : forall sel w e,
    (drv_wait_presence drv sel w).1 = Raise e -> is_timeout e = true;
  handled_script : forall js w, exists h, (drv_execute_script drv js w).1 = Ok h;
  handled_articles : forall w e,
    (drv_find_elements drv TweetArticle w).1 = Raise e -> is_stale e = true;
  handled_el_find : forall el sel w e,
    (el_find_element drv el sel w).1 = Raise e -> element_gone e = true;
  handled_el_finds : forall el sel w e,
    (el_find_elements drv el sel w).1 = Raise e -> element_gone e = true;
  handled_href : forall el w e,
    (el_get_attribute_href drv el w).1 = Raise e -> element_gone e = true;
  handled_text : forall el w e,
    (el_text drv el w).1 = Raise e -> element_gone e = true;
}.

(** ** Two sessions on the same page *)

(** Two calls give the same answer and leave related worlds. *)
Definition same_answer {W1 W2 A} (R : W1 -> W2 -> Prop)
    (x : result A * W1) (y : result A * W2) : Prop :=
  x.1 = y.1 /\ R x.2 y.2.

(** Two drivers show the same page, up to the relation [R] between their
    worlds: in related worlds every call on the page gives the same answer,
    the positions drawn for the recovery scroll are the same, and related
    worlds follow.  The pauses are free: [env_sleep] only has to keep the
    worlds related, so the clocks of the two drivers may run apart.  What
    the last resort of [get_tweet_id] draws is left open. *)
Record same_page {W1 W2 E} (R : W1 -> W2 -> Prop)
    (drv1 : Driver W1 E) (drv2 : Driver W2 E) : Prop := {
  sp_get : forall url w1 w2, R w1 w2 ->
    same_answer R (drv_get drv1 url w1) (drv_get drv2 url w2);
  sp_wait : forall sel w1 w2, R w1 w2 ->
    same_answer R (drv_wait_presence drv1 sel w1) (drv_wait_presence drv2 sel w2);
  sp_find_element : forall sel w1 w2, R w1 w2 ->
    same_answer R (drv_find_element drv1 sel w1) (drv_find_element drv2 sel w2);
  sp_find_elements : forall sel w1 w2, R w1 w2 ->
    same_answer R (drv_find_elements drv1 sel w1) (drv_find_elements drv2 sel w2);
  sp_script : forall js w1 w2, R w1 w2 ->
    same_answer R (drv_execute_script drv1 js w1) (drv_execute_script drv2 js w2);
  sp_el_find : forall el sel w1 w2, R w1 w2 ->
    same_answer R (el_find_element drv1 el sel w1) (el_find_element drv2 el sel w2);
  sp_el_finds : forall el sel w1 w2, R w1 w2 ->
    same_answer R (el_find_elements drv1 el sel w1) (el_find_elements drv2 el sel w2);
  sp_href : forall el w1 w2, R w1 w2 ->
    same_answer R (el_get_attribute_href drv1 el w1) (el_get_attribute_href drv2 el w2);
  sp_text : forall el w1 w2, R w1 w2 ->
    same_answer R (el_text drv1 el w1) (el_text drv2 el w2);
  sp_click : forall el w1 w2, R w1 w2 ->
    same_answer R (el_click drv1 el w1) (el_click drv2 el w2);
  sp_sleep : forall w1 w2, R w1 w2 ->
    R (env_sleep drv1 w1) (env_sleep drv2 w2);
  sp_last_resort : forall w1 w2, R w1 w2 ->
    R (env_last_resort drv1 w1).2 (env_last_resort drv2 w2).2;
  sp_random_position : forall h w1 w2, R w1 w2 ->
    (env_random_position drv1 h w1).1 = (env_random_position drv2 h w2).1
    /\ R (env_random_position drv1 h w1).2 (env_random_position drv2 h w2).2;
}.

(** The clock and the random generator give the two drivers the same
    last-resort identities. *)
Definition same_draws {W1 W2 E} (R : W1 -> W2 -> Prop)
    (drv1 : Driver W1 E) (drv2 : Driver W2 E) : Prop :=
  forall w1 w2, R w1 w2 ->
    (env_last_resort drv1 w1).1 = (env_last_resort drv2 w2).1.

(** Every post has a status link with a number in it, so its identity is
    read off the page. *)
Definition linked {W E} (drv : Driver W E) : Prop :=
  forall el w, exists a w1 h w2 g,
    el_find_element drv el StatusLink w = (Ok a, w1)
    /\ el_get_attribute_href drv a w1 = (Ok (Some h), w2)
    /\ Re.search status_re h = Some (Some g).

(** The states of two sessions agree but for their worlds, which are
    related. *)
Definition state_sim {W1 W2} (R : W1 -> W2 -> Prop)
    (s1 : state W1) (s2 : state W2) : Prop :=
  R (world s1) (world s2)
  /\ seen_tweets s1 = seen_tweets s2
  /\ tweets s1 = tweets s2
  /\ last_height s1 = last_height s2
  /\ no_new_tweets_count s1 = no_new_tweets_count s2
  /\ consecutive_failed_scrolls s1 = consecutive_failed_scrolls s2
  /\ scroll_count s1 = scroll_count s2.

Definition sim_out {W1 W2 A} (R : W1 -> W2 -> Prop)
    (x : result A * state W1) (y : result A * state W2) : Prop :=
  x.1 = y.1 /\ state_sim R x.2 y.2.

(** Two computations that, from agreeing states, end with the same outcome
    in agreeing states. *)
Definition sim {W1 W2 A} (R : W1 -> W2 -> Prop)
    (m1 : M W1 A) (m2 : M W2 A) : Prop :=
  forall s1 s2, state_sim R s1 s2 -> sim_out R (m1 s1) (m2 s2).

(** A page with one post, which has no status link and whose text is
    painted by the first reading: each enumeration of the posts renders
    the post anew, its first reading gives no text and every later one
    [hello].  The world holds whether the text is painted, the clock, which
    each pause advances by [pause], and the draws still to come for the
    last-resort identity. *)
Definition flaky (pause : nat) : Driver (bool * nat * list string) unit :=
  let W := (bool * nat * list string)%type in
  {|
    drv_get := fun _ (w : W) => (Ok tt, w);
    drv_wait_presence := fun sel (w : W) =>
      (match sel with ProtectedSpan => Raise TimeoutException | _ => Ok tt end, w);
    drv_find_element := fun _ (w : W) => (Raise NoSuchElementException, w);
    drv_find_elements := fun sel (w : W) =>
      match sel with
      | TweetArticle => (Ok [tt], (false, w.1.2, w.2))
      | _ => (Ok [], w)
      end;
    drv_execute_script := fun _ (w : W) => (Ok 0, w);
    el_find_element := fun _ _ (w : W) => (Raise NoSuchElementException, w);
    el_find_elements := fun _ _ (w : W) => (Ok [tt], w);
    el_get_attribute_href := fun _ (w : W) => (Ok None, w);
    el_text := fun _ (w : W) =>
      (Ok (if w.1.1 then "hello" else EmptyString)%string,
       (true, w.1.2, w.2));
    el_click := fun _ (w : W) => (Ok tt, w);
    env_sleep := fun (w : W) => (w.1.1, (w.1.2 + pause)%nat, w.2);
    env_last_resort := fun (w : W) =>
      match w.2 with
      | [] => ("0.0_1000"%string, w)
      | d :: rest => (d, (w.1.1, w.1.2, rest))
      end;
    env_random_position := fun _ (w : W) => (0, w);
  |}.

(** The page and the draws are the same; the clocks are free. *)
Definition same_but_clock (w1 w2 : bool * nat * list string) : Prop :=
  w1.1.1 = w2.1.1 /\ w1.2 = w2.2.

(** ** The request handlers that call the scraper
    ([src/server/Application/main.py], lines 556-644)

    A handler runs in the world of the host: besides the calls of the
    scraper it launches the browser ([TwitterScraper(headless=False)], which
    also gives the scraper an empty seen set) and quits it
    ([scraper.close()], that is [driver.quit()]).  The query parameter
    [count] is taken as Flask hands it over, an [int]. *)

Record Host (W E : Type) : Type := {
  host_driver : Driver W E;
  host_launch : W -> result unit * W;
  host_quit : W -> result unit * W;
}.
Arguments host_driver {W E} _.
Arguments host_launch {W E} _ _.
Arguments host_quit {W E} _ _.

(** The JSON bodies of the two handlers. *)
Inductive payload : Type :=
| ErrorBody (error : string)                      (* {"error": ..} *)
| DeniedBody (error message : string)             (* {"error": .., "message": ..} *)
| FailureBody (e : exn)                           (* {"error": str(e)} *)
| TweetsBody (username : string) (url : option string)
    (count : nat) (tweets : list string).         (* {"username": .., ["url": ..,] "count": .., "tweets": ..} *)

Record response : Type := mkResponse {
  status : Z;
  body : payload;
}.

Section Handlers.
Context {W E : Type} (host : Host W E).

(** [scraper = TwitterScraper(..); try: body finally: scraper.close()] under
    the handler's [except Exception]: the value of the body, unless the
    launch, the body or the quit raises; an exception of the quit replaces
    the outcome of the body. *)
Definition with_scraper {A} (body : M W A) (w : W) : result A * W :=
  match host_launch host w with
  | (Raise e, w1) => (Raise e, w1)
  | (Ok _, w1) =>
      let '(r, s) := body (entry w1 ∅) in
      match host_quit host (world s) with
      | (Raise e, w2) => (Raise e, w2)
      | (Ok _, w2) => (r, w2)
      end
  end.

(** The answer for the outcome of the scraper (lines 578-588, 626-637) and
    for an exception (lines 593-595, 643-644). *)
Definition answer (username : string) (url : option string)
    (r : result (option (list string))) : response :=
  match r with
  | Ok (Some tweets) =>
      mkResponse 200 (TweetsBody username url (List.length tweets) tweets)
  | Ok None =>
      mkResponse 403
        (DeniedBody "Cannot access tweets" "Profile is private or does not exist")
  | Raise e => mkResponse 500 (FailureBody e)
  end.

(** [get_tweets_by_username] (lines 556-595) *)
Definition get_tweets_by_username (username : string) (count : Z) (w : W)
    : response * W :=
  if negb (PyStr.truthy username) then
    (mkResponse 400 (ErrorBody "Username cannot be empty"), w)
  else if (count <=? 0) || (100 <? count) then
    (mkResponse 400 (ErrorBody "Count must be between 1 and 100"), w)
  else
    let '(r, w') :=
      with_scraper (scrape_tweets (host_driver host) username false count false) w in
    (answer username None r, w').


End Handlers.

(** A host for the scripted driver: launching and quitting are logged as
    navigation to [launch] and [quit]. *)
Definition mock_host : Host Mock.world Mock.element := {|
  host_driver := Mock.driver;
  host_launch w := (Ok tt, Mock.logged (Mock.EvGet "launch") w);
  host_quit w := (Ok tt, Mock.logged (Mock.EvGet "quit") w);
|}.

(** * Properties *)

(** ** The monad: relations kept by every step *)

Section MonadFacts.
Context {W : Type}.
Implicit Types (s : state W) (R : state W -> state W -> Prop).

Lemma set_world_same s : set_world (world s) s = s.
Proof. now destruct s. Qed.

#[export] Instance world_only_preorder : PreOrder (@world_only W).
Proof.
  split.
  - intros s. unfold world_only. now rewrite set_world_same.
  - intros s1 s2 s3 H12 H23. unfold world_only in *.
    rewrite H23, H12. now destruct s1.
Qed.

Lemma within_ret R `{!Reflexive R} {A} (a : A) : within R (ret a).
Proof. intros s. simpl. reflexivity. Qed.

Lemma within_raise R `{!Reflexive R} {A} e : within R (@raise W A e).
Proof. intros s. simpl. reflexivity. Qed.

Lemma within_get_state R `{!Reflexive R} : within R get_state.
Proof. intros s. simpl. reflexivity. Qed.

Lemma within_modify R (f : state W -> state W) :
  (forall s, R s (f s)) -> within R (modify f).
Proof. intros H s. apply H. Qed.

Lemma within_bind R `{!Transitive R} {A B} (m : M W A) (k : A -> M W B) :
  within R m -> (forall a, within R (k a)) -> within R (bind m k).
Proof.
  intros Hm Hk s. unfold bind. specialize (Hm s).
  destruct (m s) as [[a|e] s1]; simpl in *.
  - etransitivity; [exact Hm | apply Hk].
  - exact Hm.
Qed.

Lemma within_try R `{!Transitive R} {A} (m h : M W A) classes :
  within R m -> within R h -> within R (try_except m classes h).
Proof.
  intros Hm Hh s. unfold try_except. specialize (Hm s).
  destruct (m s) as [[a|e] s1]; simpl in *.
  - exact Hm.
  - destruct (classes e); simpl.
    + etransitivity; [exact Hm | apply Hh].
    + exact Hm.
Qed.

Lemma within_call R {A} (op : W -> result A * W) :
  (forall s w, R s (set_world w s)) -> within R (call op).
Proof.
  intros H s. unfold call. destruct (op (world s)) as [r w]. apply H.
Qed.

Lemma within_ask R {A} (op : W -> A * W) :
  (forall s w, R s (set_world w s)) -> within R (ask op).
Proof.
  intros H s. unfold ask. destruct (op (world s)) as [r w]. apply H.
Qed.

Lemma within_weaken R R' {A} (m : M W A) :
  (forall s s', R s s' -> R' s s') -> within R m -> within R' m.
Proof. intros H Hm s. apply H, Hm. Qed.

Lemma world_only_set_world s w : world_only s (set_world w s).
Proof. unfold world_only. now destruct s. Qed.

End MonadFacts.

(** Walks through a computation built from the monad's combinators, leaving
    the [modify] steps and the calls on the environment as goals on the
    relation. *)
Ltac within_step :=
  lazymatch goal with
  | |- within _ (bind _ _) => apply within_bind; [try exact _ | | intros ?]
  | |- within _ (try_except _ _ _) => apply within_try; [try exact _ | | ]
  | |- within _ (ret _) => apply within_ret; try exact _
  | |- within _ get_state => apply within_get_state; try exact _
  | |- within _ (call _) => apply within_call; intros ? ?
  | |- within _ (ask _) => apply within_ask; intros ? ?
  | |- within _ (modify _) => apply within_modify; intros ?
  | |- within _ (if ?b then _ else _) => destruct b
  | |- within _ (match ?x with _ => _ end) => destruct x
  end.
Ltac within_walk := repeat within_step.

(** Settles the test of a conditional on a string that is known up to its
    tail: the test computes, or it is a disjunction whose right side does. *)
Ltac step_if :=
  match goal with
  | |- (if ?c then _ else _) = _ =>
      first
        [ replace c with true
            by (symmetry;
                first [ vm_compute; reflexivity
                      | apply orb_true_intro; right; vm_compute; reflexivity ])
        | replace c with false by (symmetry; vm_compute; reflexivity) ];
      cbv iota
  end.

(** Reduces the projections and updates of the state, and nothing else. *)
Ltac state_simpl :=
  cbn [world seen_tweets tweets last_height no_new_tweets_count
       consecutive_failed_scrolls scroll_count set_world set_seen_tweets
       set_tweets set_last_height set_no_new_tweets_count
       set_consecutive_failed_scrolls set_scroll_count entry fst snd] in *.

(** ** Frames: what each part of the scraper leaves alone *)

Section Frames.
Context {W E : Type} (drv : Driver W E).
Implicit Types (s : state W).

Lemma sleep_world_only : within world_only (sleep drv).
Proof. intros s. apply world_only_set_world. Qed.

Lemma element_texts_world_only parts : within world_only (element_texts drv parts).
Proof.
  induction parts as [|p parts IH]; simpl.
  - within_walk.
  - within_walk; try apply world_only_set_world. exact IH.
Qed.

Lemma get_tweet_id_world_only el : within world_only (get_tweet_id drv el).
Proof.
  unfold get_tweet_id.
  within_walk; try apply world_only_set_world; apply element_texts_world_only.
Qed.

Lemma perform_scroll_world_only d : within world_only (perform_scroll drv d).
Proof.
  unfold perform_scroll.
  within_walk; try apply world_only_set_world; apply sleep_world_only.
Qed.

Lemma click_buttons_world_only buttons : within world_only (click_buttons drv buttons).
Proof.
  induction buttons as [|b buttons IH]; simpl.
  - within_walk.
  - within_walk; try apply world_only_set_world; try apply sleep_world_only.
    exact IH.
Qed.

Lemma regular_strategy_world_only : within world_only (regular_strategy drv).
Proof.
  unfold regular_strategy.
  within_walk; [apply perform_scroll_world_only | apply sleep_world_only].
Qed.

End Frames.

(** ** The scan of the rendered posts *)

Section Scan.
Context {W E : Type} (drv : Driver W E).
Implicit Types (s : state W).

#[export] Instance scan_rel_preorder : PreOrder (@scan_rel W).
Proof.
  split.
  - intros s. split; try reflexivity.
    exists []. rewrite app_nil_r. split; [reflexivity | simpl; lia].
  - intros s1 s2 s3 [Hs1 (n1 & Ht1 & Hn1) ? ? ? ?] [Hs2 (n2 & Ht2 & Hn2) ? ? ? ?].
    split; try congruence.
    + set_solver.
    + exists (n1 ++ n2). rewrite Ht2, Ht1, <- app_assoc. split; [reflexivity|].
      rewrite length_app. lia.
Qed.

#[export] Instance advance_rel_preorder : PreOrder (@advance_rel W).
Proof.
  split.
  - intros s. now split.
  - intros s1 s2 s3 [] []. split; congruence.
Qed.

Lemma world_only_scan_rel s s' : world_only s s' -> scan_rel s s'.
Proof.
  intros H. rewrite H. split; simpl; try reflexivity.
  exists []. rewrite app_nil_r. split; [reflexivity | simpl; lia].
Qed.

Lemma world_only_advance_rel s s' : world_only s s' -> advance_rel s s'.
Proof. intros H. rewrite H. now split. Qed.

Lemma size_mark (tweet_id : string) (seen : gset string) :
  tweet_id ∉ seen -> size ({[tweet_id]} ∪ seen) = S (size seen).
Proof.
  intros H. rewrite size_union by set_solver. now rewrite size_singleton.
Qed.

(** The body of the [for] loop takes one of the three steps. *)
Lemma process_tweet_step num el s :
  tweet_step num s (process_tweet drv num el s).1 (process_tweet drv num el s).2.
Proof.
  unfold process_tweet, try_except, bind.
  pose proof (get_tweet_id_world_only drv el s) as H1.
  destruct (get_tweet_id drv el s) as [[tweet_id|e] s1];
    unfold world_only in H1; simpl in H1.
  2:{ rewrite H1.
      destruct (element_gone e); simpl;
        apply (step_skip num s _ (world s1)); discriminate. }
  rewrite H1. unfold get_state at 1. simpl.
  destruct (bool_decide_reflect (tweet_id ∈ seen_tweets s)) as [Hin|Hnotin]; simpl.
  { apply (step_skip num s _ (world s1)); discriminate. }
  unfold call. simpl.
  destruct (el_find_elements drv el TweetText (world s1)) as [[parts|e] w2]; simpl.
  2:{ destruct (element_gone e); simpl;
        apply (step_mark num s _ w2 tweet_id); solve [exact Hnotin | discriminate]. }
  match goal with |- context [element_texts drv parts ?st] =>
    pose proof (element_texts_world_only drv parts st) as H3;
    destruct (element_texts drv parts st) as [[texts|e] s3];
    unfold world_only in H3; simpl in H3 end.
  2:{ rewrite H3. destruct (element_gone e); simpl;
        apply (step_mark num s _ (world s3) tweet_id);
        solve [exact Hnotin | discriminate]. }
  rewrite H3.
  destruct (PyStr.truthy (PyStr.join " " texts)) eqn:Ht; simpl.
  2:{ apply (step_mark num s _ (world s3) tweet_id);
        solve [exact Hnotin | discriminate]. }
  match goal with |- context [if ?b then _ else _] => destruct b eqn:Hb end;
    simpl;
    pose proof (step_collect num s (world s3) tweet_id _ Hnotin Ht) as Hs;
    simpl in Hs; rewrite Hb in Hs; exact Hs.
Qed.

Lemma tweet_step_scan_rel num s r s' : tweet_step num s r s' -> scan_rel s s'.
Proof.
  intros [r' w _ | r' w tweet_id Hnew _ | w tweet_id full_text Hnew _].
  - apply world_only_scan_rel, world_only_set_world.
  - split; simpl; try reflexivity.
    + set_solver.
    + exists []. rewrite app_nil_r, size_mark by exact Hnew.
      split; [reflexivity | simpl; lia].
  - split; simpl; try reflexivity.
    + set_solver.
    + exists [full_text]. rewrite size_mark by exact Hnew.
      split; [reflexivity | simpl; lia].
Qed.

Lemma tweet_step_bound num s r s' :
  tweet_step num s r s' -> below num s ->
  at_most num s' /\ (r <> Ok true -> below num s').
Proof.
  unfold below, at_most.
  intros [r' w _ | r' w tweet_id _ _ | w tweet_id full_text _ _] Hlt; simpl.
  - lia.
  - lia.
  - rewrite length_app in *. simpl.
    destruct (Z.leb_spec num (Z.of_nat (List.length (tweets s) + 1))) as [Hle|Hgt].
    + split; [lia | congruence].
    + split; [lia | intros _; lia].
Qed.

(** The handler of the [for] body takes both element exceptions, so none
    leaves it. *)
Lemma process_tweet_raises num el s e :
  (process_tweet drv num el s).1 = Raise e -> element_gone e = false.
Proof.
  unfold process_tweet, try_except.
  match goal with |- context [let (_, _) := ?m s in _] => destruct (m s) as [[b|e'] s1] end;
    simpl; [discriminate|].
  destruct (element_gone e') eqn:He; simpl; [discriminate|].
  intros [= <-]. exact He.
Qed.

Lemma for_tweets_scan_rel num els : within scan_rel (for_tweets drv num els).
Proof.
  induction els as [|el els IH]; simpl.
  - within_walk.
  - apply within_bind; [exact _ | | intros [|]; [within_walk | exact IH]].
    intros s. eapply tweet_step_scan_rel, process_tweet_step.
Qed.

Lemma for_tweets_bound num els s :
  below num s -> at_most num (for_tweets drv num els s).2.
Proof.
  revert s. induction els as [|el els IH]; intros s Hlt; simpl.
  - unfold at_most, below in *. lia.
  - unfold bind.
    pose proof (process_tweet_step num el s) as Hstep.
    destruct (tweet_step_bound _ _ _ _ Hstep Hlt) as [Hle Hnext].
    destruct (process_tweet drv num el s) as [[[|]|e] s1]; simpl in *.
    + exact Hle.
    + apply IH, Hnext. discriminate.
    + exact Hle.
Qed.

Lemma for_tweets_raises num els s e :
  (for_tweets drv num els s).1 = Raise e -> element_gone e = false.
Proof.
  revert s. induction els as [|el els IH]; intros s; simpl; [discriminate|].
  unfold bind.
  pose proof (process_tweet_raises num el s) as Hr.
  destruct (process_tweet drv num el s) as [[[|]|e'] s1]; simpl in *.
  - discriminate.
  - apply IH.
  - intros [= <-]. now apply Hr.
Qed.

End Scan.

(** ** One iteration of the main loop *)

Section Iteration.
Context {W E : Type} (drv : Driver W E).
Implicit Types (s : state W).

Lemma is_stale_element_gone e : is_stale e = true -> element_gone e = true.
Proof. now destruct e. Qed.

Lemma scan_tweets_outcome num s :
  scan_outcome num s (scan_tweets drv num s).1 (scan_tweets drv num s).2.
Proof.
  unfold scan_tweets, try_except, bind, call.
  destruct (drv_find_elements drv TweetArticle (world s)) as [[els|e] w1]; simpl.
  - pose proof (for_tweets_scan_rel drv num els (set_world w1 s)) as Hrel.
    pose proof (for_tweets_bound drv num els (set_world w1 s)) as Hbound.
    pose proof (for_tweets_raises drv num els (set_world w1 s)) as Hraise.
    assert (scan_rel s (for_tweets drv num els (set_world w1 s)).2) as Hrel'.
    { etransitivity; [|exact Hrel].
      apply world_only_scan_rel, world_only_set_world. }
    destruct (for_tweets drv num els (set_world w1 s)) as [[[]|e] s2]; simpl in *.
    + apply scan_done; assumption.
    + destruct (is_stale e) eqn:He.
      * apply is_stale_element_gone in He.
        rewrite (Hraise e eq_refl) in He. discriminate.
      * simpl. apply scan_raised; assumption.
  - destruct (is_stale e); simpl.
    + apply scan_stale. unfold world_only. now destruct s.
    + apply scan_raised.
      * apply world_only_scan_rel, world_only_set_world.
      * unfold below, at_most. simpl. lia.
Qed.

Lemma alternative_strategy_advance : within advance_rel (alternative_strategy drv).
Proof.
  unfold alternative_strategy.
  within_walk; try (now split);
    apply (within_weaken world_only); auto using world_only_advance_rel,
      sleep_world_only, click_buttons_world_only.
Qed.

Lemma regular_strategy_advance : within advance_rel (regular_strategy drv).
Proof.
  apply (within_weaken world_only);
    auto using world_only_advance_rel, regular_strategy_world_only.
Qed.

Lemma check_page_height_advance : within advance_rel (check_page_height drv).
Proof.
  unfold check_page_height.
  within_walk; try (now split);
    apply (within_weaken world_only); auto using world_only_advance_rel,
      sleep_world_only.
Qed.

(** The scroll at the end of an iteration returns [Continue] or raises. *)
Lemma scroll_on_result (m1 m2 : M W unit) s :
  ((m1 ;; m2 ;; ret Continue) s).1 = Ok Continue
  \/ exists e, ((m1 ;; m2 ;; ret Continue) s).1 = Raise e.
Proof.
  unfold bind. destruct (m1 s) as [[[]|e] s1]; simpl; [|eauto].
  destruct (m2 s1) as [[[]|e] s2]; simpl; eauto.
Qed.

Lemma finish_iteration_eq num s :
  finish_iteration drv num s =
  if num <=? Z.of_nat (List.length (tweets s)) then (Ok BreakTarget, s)
  else if Nat.leb max_consecutive_failures (consecutive_failed_scrolls s)
  then (Ok BreakStalled, s)
  else (((if Nat.leb max_no_new_tweets (no_new_tweets_count s)
          then alternative_strategy drv
          else regular_strategy drv) ;;
         check_page_height drv ;;
         ret Continue) s).
Proof.
  unfold finish_iteration. unfold bind at 1, get_state.
  destruct (num <=? _); [reflexivity|].
  destruct (Nat.leb max_consecutive_failures _); reflexivity.
Qed.

Lemma finish_iteration_outcome num s :
  advance_rel s (finish_iteration drv num s).2
  /\ match (finish_iteration drv num s).1 with
     | Ok Continue | Raise _ =>
         below num s
         /\ (consecutive_failed_scrolls s < max_consecutive_failures)%nat
     | Ok BreakTarget => num <= Z.of_nat (List.length (tweets s))
     | Ok BreakStalled =>
         below num s
         /\ (max_consecutive_failures <= consecutive_failed_scrolls s)%nat
     end.
Proof.
  rewrite finish_iteration_eq. unfold below.
  destruct (Z.leb_spec num (Z.of_nat (List.length (tweets s)))) as [Hle|Hgt].
  { split; [reflexivity | exact Hle]. }
  destruct (Nat.leb_spec max_consecutive_failures (consecutive_failed_scrolls s))
    as [Hstall|Hok].
  { split; [reflexivity | split; [exact Hgt | exact Hstall]]. }
  match goal with |- context [bind ?m1 (fun _ => bind ?m2 _)] =>
    pose proof (scroll_on_result m1 m2 s) as Hres;
    assert (within advance_rel (m1 ;; m2 ;; ret Continue)) as Hadv
  end.
  { within_walk; auto using alternative_strategy_advance,
      regular_strategy_advance, check_page_height_advance. }
  split; [apply Hadv|].
  destruct Hres as [-> | [e ->]]; split; assumption.
Qed.

Lemma update_counters_eq n s :
  update_counters n s =
  (Ok tt,
   if n =? 0 then
     set_consecutive_failed_scrolls (S (consecutive_failed_scrolls s))
       (set_no_new_tweets_count (S (no_new_tweets_count s)) s)
   else set_consecutive_failed_scrolls O (set_no_new_tweets_count O s)).
Proof. unfold update_counters. now destruct (n =? 0). Qed.

(** The body of the loop, phase by phase. *)
Lemma loop_body_eq num s :
  loop_body drv num s =
  match scan_tweets drv num (set_scroll_count (S (scroll_count s)) s) with
  | (Ok None, s1) => (Ok Continue, s1)
  | (Ok (Some tweets_before), s1) =>
      finish_iteration drv num
        (update_counters
           (Z.of_nat (List.length (tweets s1)) - Z.of_nat tweets_before) s1).2
  | (Raise e, s1) => (Raise e, s1)
  end.
Proof.
  unfold loop_body. unfold bind at 1, modify. unfold bind at 1.
  destruct (scan_tweets drv num _) as [[[before|]|e] s1]; try reflexivity.
  unfold bind at 1, get_state. unfold bind.
  now rewrite update_counters_eq.
Qed.

Lemma loop_body_iteration num s :
  iteration num s (loop_body drv num s).1 (loop_body drv num s).2.
Proof.
  rewrite loop_body_eq.
  set (s0 := set_scroll_count (S (scroll_count s)) s).
  pose proof (scan_tweets_outcome num s0) as Hscan.
  destruct (scan_tweets drv num s0) as [r1 s1]. simpl in Hscan.
  inversion Hscan as [s1' Hw | s1' Hrel Hb | e s1' Hrel Hb]; subst; clear Hscan.
  - (* stale page: [continue] *)
    rewrite Hw. simpl. split; simpl; try reflexivity.
    + exists []. rewrite app_nil_r. repeat split; try (simpl; lia). left. auto.
    + unfold below, at_most. simpl. lia.
    + unfold below. simpl. auto.
  - (* the scan completed *)
    destruct Hrel as [Hseen (new & Htw & Hsize) Hlh Hnn Hcf Hsc].
    rewrite update_counters_eq.
    match goal with |- context [finish_iteration drv num ?st] =>
      set (s2 := st);
      destruct (finish_iteration_outcome num s2) as [[Aseen Atw Acf Asc] Hexit];
      destruct (finish_iteration drv num s2) as [r3 s3] end.
    simpl in *.
    assert (tweets s2 = tweets s ++ new) as Htw2.
    { unfold s2. destruct (_ =? 0); simpl; exact Htw. }
    assert (seen_tweets s2 = seen_tweets s1) as Hseen2.
    { unfold s2. destruct (_ =? 0); reflexivity. }
    assert (scroll_count s2 = scroll_count s1) as Hsc2.
    { unfold s2. destruct (_ =? 0); reflexivity. }
    assert ((new = [] /\ consecutive_failed_scrolls s2 = S (consecutive_failed_scrolls s))
            \/ (new <> [] /\ consecutive_failed_scrolls s2 = O)) as Hcf2.
    { unfold s2. rewrite Htw, length_app.
      destruct (Z.eqb_spec (Z.of_nat (List.length (tweets s) + List.length new)
                            - Z.of_nat (List.length (tweets s))) 0) as [Hz|Hnz]; simpl.
      - left. split; [|congruence]. destruct new; [reflexivity | simpl in Hz; lia].
      - right. split; [|reflexivity]. intros ->. simpl in Hnz. lia. }
    unfold below, at_most in *. rewrite Htw2 in *.
    split; unfold below, at_most.
    + congruence.
    + rewrite Aseen, Hseen2. exact Hseen.
    + exists new. rewrite Atw, Aseen, Hseen2, Acf.
      repeat split; [assumption | tauto].
    + rewrite Atw, <- Htw. exact Hb.
    + destruct r3 as [[]|e]; rewrite ?Atw, ?Acf; tauto.
  - (* an exception left the scan *)
    destruct Hrel as [Hseen (new & Htw & Hsize) Hlh Hnn Hcf Hsc].
    unfold s0 in *. simpl in *. split; simpl.
    + exact Hsc.
    + exact Hseen.
    + exists new. repeat split; try assumption. left. eauto.
    + exact Hb.
    + exact I.
Qed.

End Iteration.

(** ** The main loop *)

Section Loop.
Context {W E : Type} (drv : Driver W E).
Implicit Types (s : state W).

#[export] Instance session_rel_preorder : PreOrder (@session_rel W).
Proof.
  split.
  - intros s. split; try reflexivity.
    exists []. rewrite app_nil_r. split; [reflexivity | simpl; lia].
  - intros s1 s2 s3 [Hs1 (n1 & Ht1 & Hn1) Hc1] [Hs2 (n2 & Ht2 & Hn2) Hc2].
    split.
    + set_solver.
    + exists (n1 ++ n2). rewrite Ht2, Ht1, <- app_assoc. split; [reflexivity|].
      rewrite length_app. lia.
    + lia.
Qed.

Lemma world_only_session_rel s s' : world_only s s' -> session_rel s s'.
Proof.
  intros H. rewrite H. split; simpl; try reflexivity.
  exists []. rewrite app_nil_r. split; [reflexivity | simpl; lia].
Qed.

Lemma iteration_session_rel num s r s' : iteration num s r s' -> session_rel s s'.
Proof.
  intros [Hsc Hseen (new & Htw & Hsize & _) _ _]. split.
  - exact Hseen.
  - exists new. split; assumption.
  - lia.
Qed.

Lemma while_loop_eq fuel num s :
  while_loop drv fuel num s =
  if (Z.of_nat (List.length (tweets s)) <? num)
     && Nat.ltb (scroll_count s) max_scroll_attempts
  then
    match fuel with
    | O => (Ok FuelOut, s)
    | S fuel' =>
        match loop_body drv num s with
        | (Ok Continue, s1) => while_loop drv fuel' num s1
        | (Ok c, s1) => (Ok (Broke c), s1)
        | (Raise e, s1) => (Raise e, s1)
        end
    end
  else (Ok CondFalse, s).
Proof.
  destruct fuel as [|fuel']; simpl; unfold bind at 1, get_state;
    destruct (_ && _); try reflexivity.
  unfold bind. destruct (loop_body drv num s) as [[[]|e] s1]; reflexivity.
Qed.

Lemma while_loop_session_rel fuel num : within session_rel (while_loop drv fuel num).
Proof.
  induction fuel as [|fuel IH]; intros s; rewrite while_loop_eq;
    destruct (_ && _); simpl; try reflexivity.
  pose proof (iteration_session_rel _ _ _ _ (loop_body_iteration drv num s)) as Hit.
  destruct (loop_body drv num s) as [[[]|e] s1]; simpl in *; try exact Hit.
  etransitivity; [exact Hit | apply IH].
Qed.

(** The bounds at the end of the loop, and why it ended. *)
Lemma while_loop_exit fuel num s :
  loop_inv num s ->
  at_most (Z.max 0 num) (while_loop drv fuel num s).2
  /\ (consecutive_failed_scrolls (while_loop drv fuel num s).2
      <= max_consecutive_failures)%nat
  /\ (scroll_count (while_loop drv fuel num s).2 <= max_scroll_attempts)%nat
  /\ loop_end num fuel s (while_loop drv fuel num s).1 (while_loop drv fuel num s).2.
Proof.
  revert s. induction fuel as [|fuel IH]; intros s [Htw Hcf Hsc];
    rewrite while_loop_eq;
    destruct (Z.ltb_spec (Z.of_nat (List.length (tweets s))) num) as [Hlt|Hge];
    destruct (Nat.ltb_spec (scroll_count s) max_scroll_attempts) as [Hroom|Hfull];
    cbn [andb fst snd];
    try (unfold loop_end, below; repeat split; solve [assumption | lia]).
  pose proof (loop_body_iteration drv num s) as [Isc Iseen Itw Ib Iexit].
  destruct Itw as (new & Inew & _ & Icf).
  specialize (Ib Hlt). unfold at_most, below in *.
  destruct (loop_body drv num s) as [[[]|e] s1]; cbn [fst snd] in *.
  - (* Continue *)
    destruct (Iexit Hlt Hcf) as [Hlt1 Hcf1].
    assert (loop_inv num s1) as Hinv1.
    { split; unfold at_most; lia. }
    destruct (IH s1 Hinv1) as (H1 & H2 & H3 & H4).
    repeat split; try assumption.
    unfold loop_end in *.
    destruct (while_loop drv fuel num s1) as [[[|[]|]|e] s2];
      cbn [fst snd] in *; try assumption.
    destruct H4 as (H4 & H5). split; [lia | exact H5].
  - (* BreakTarget *)
    unfold loop_end. repeat split; try lia.
  - (* BreakStalled *)
    unfold loop_end, below. repeat split; try lia.
  - (* an exception left the body *)
    unfold loop_end. repeat split; try lia.
Qed.

End Loop.

(** ** [scrape_tweets], path by path *)

Section Paths.
Context {W E : Type} (drv : Driver W E).
Implicit Types (s : state W).

(** The state in which the main loop is entered: every local bound, the
    seen set and the page height as they are. *)
Lemma collect_and_return_eq fuel num s :
  collect_and_return drv fuel num s =
  match drv_execute_script drv ScrollHeight (world s) with
  | (Raise e, w1) => (Raise e, set_world w1 s)
  | (Ok h, w1) =>
      match while_loop drv fuel num (mkState w1 (seen_tweets s) (tweets s) h O O O) with
      | (Ok _, s') => (Ok (Some (py_slice_to num (tweets s'))), s')
      | (Raise e, s') => (Raise e, s')
      end
  end.
Proof.
  unfold collect_and_return, collect, init_loop, bind, call, modify, get_state.
  destruct (drv_execute_script drv ScrollHeight (world s)) as [[h|e] w1];
    simpl; [|reflexivity].
  destruct (while_loop drv fuel num _) as [[ex|e] s']; reflexivity.
Qed.

Lemma scrape_tweets_upto_eq fuel identifier is_url num verbose s :
  scrape_tweets_upto drv fuel identifier is_url num verbose s =
  match drv_get drv (get_profile_url identifier is_url) (world s) with
  | (Raise e, w1) => (Raise e, set_world w1 s)
  | (Ok _, w1) =>
      match drv_wait_presence drv ProtectedSpan w1 with
      | (Ok _, w2) => (Ok None, set_world w2 s)
      | (Raise e, w2) =>
          if is_timeout e then
            match drv_wait_presence drv TweetArticle w2 with
            | (Ok _, w3) =>
                collect_and_return drv fuel num
                  (set_world w3 (set_seen_tweets ∅ (set_tweets [] s)))
            | (Raise e', w3) =>
                if is_timeout e'
                then (Ok (Some []), set_world w3 (set_seen_tweets ∅ (set_tweets [] s)))
                else (Raise e', set_world w3 (set_seen_tweets ∅ (set_tweets [] s)))
            end
          else (Raise e, set_world w2 s)
      end
  end.
Proof.
  unfold scrape_tweets_upto, try_except, bind, call, modify, ret.
  destruct (drv_get drv _ (world s)) as [[[]|e] w1]; simpl; [|reflexivity].
  destruct (drv_wait_presence drv ProtectedSpan w1) as [[el|e] w2]; simpl;
    [reflexivity|].
  destruct (is_timeout e); simpl; [|reflexivity].
  destruct (drv_wait_presence drv TweetArticle w2) as [[el|e'] w3]; simpl;
    [reflexivity|].
  destruct (is_timeout e'); reflexivity.
Qed.

Lemma py_slice_to_all {A} (n : Z) (l : list A) :
  Z.of_nat (List.length l) <= Z.max 0 n -> py_slice_to n l = l.
Proof.
  intros H. unfold py_slice_to.
  destruct (Z.ltb_spec n 0) as [Hneg|Hpos]; apply firstn_all2; lia.
Qed.

(** Room for more iterations than [max_scroll_attempts] changes nothing. *)
Lemma while_loop_fuel fuel1 fuel2 num s :
  (max_scroll_attempts <= scroll_count s + fuel1)%nat ->
  (max_scroll_attempts <= scroll_count s + fuel2)%nat ->
  while_loop drv fuel1 num s = while_loop drv fuel2 num s.
Proof.
  revert fuel2 s. induction fuel1 as [|fuel1 IH]; intros fuel2 s H1 H2;
    rewrite (while_loop_eq drv _ num s), (while_loop_eq drv fuel2 num s);
    destruct (Nat.ltb_spec (scroll_count s) max_scroll_attempts) as [Hroom|Hfull];
    rewrite ?andb_false_r; try reflexivity; try lia.
  destruct fuel2 as [|fuel2]; [lia|].
  destruct (_ && true); [|reflexivity].
  pose proof (it_scroll_count _ _ _ _ (loop_body_iteration drv num s)) as Hsc.
  destruct (loop_body drv num s) as [[[]|e] s1]; try reflexivity.
  simpl in Hsc. apply IH; lia.
Qed.

(** The end of the loop as [scrape_tweets] runs it: from the locals of lines
    195-201, with nothing collected yet. *)
Lemma while_loop_from_start fuel num w seen h :
  let s0 := mkState w seen [] h O O O in
  let run := while_loop drv fuel num s0 in
  at_most (Z.max 0 num) run.2
  /\ (consecutive_failed_scrolls run.2 <= max_consecutive_failures)%nat
  /\ (scroll_count run.2 <= max_scroll_attempts)%nat
  /\ loop_end num fuel s0 run.1 run.2.
Proof.
  intros s0 run. apply while_loop_exit.
  split; unfold at_most, max_consecutive_failures, max_scroll_attempts; simpl; lia.
Qed.

End Paths.

(** ** Bounded termination with a partial result *)

Section Bounds.
Context {W E : Type} (drv : Driver W E).
Implicit Types (s : state W).

Lemma collect_eq fuel num s :
  collect drv fuel num s =
  match drv_execute_script drv ScrollHeight (world s) with
  | (Raise e, w1) => (Raise e, set_world w1 s)
  | (Ok h, w1) =>
      while_loop drv fuel num (mkState w1 (seen_tweets s) (tweets s) h O O O)
  end.
Proof.
  unfold collect, init_loop, bind, call, modify.
  destruct (drv_execute_script drv ScrollHeight (world s)) as [[h|e] w1];
    reflexivity.
Qed.

Lemma loop_end_stopped num s ex s' :
  scroll_count s = O ->
  loop_end num max_scroll_attempts s (Ok ex) s' -> stopped num ex s'.
Proof.
  unfold loop_end, stopped. intros Hsc. destruct ex as [|[]|]; try tauto.
  rewrite Hsc. simpl. lia.
Qed.

(** The bounds of a session.  From the entry of [scrape_tweets], whatever
    the driver does: (1) the state in which the call ends has
    [scroll_count <= 50], [consecutive_failed_scrolls <= 8] and at most
    [max 0 num_tweets] collected texts; (2) a returned list is everything
    collected, so it has at most [num_tweets] items (none when [num_tweets]
    is negative); (3) room for more than 50 iterations changes nothing, so
    the loop never runs more than 50; (4) when the loop ends, it is because
    the target is reached, or [consecutive_failed_scrolls = 8], or
    [scroll_count = 50], and the call then returns all collected texts as a
    list. *)
Lemma scrape_tweets_bounds identifier is_url num_tweets verbose w seen :
  let s0 := entry w seen in
  let run := scrape_tweets drv identifier is_url num_tweets verbose s0 in
  ((scroll_count run.2 <= max_scroll_attempts)%nat
   /\ (consecutive_failed_scrolls run.2 <= max_consecutive_failures)%nat
   /\ Z.of_nat (List.length (tweets run.2)) <= Z.max 0 num_tweets)
  /\ (forall l, run.1 = Ok (Some l) ->
        l = tweets run.2 /\ Z.of_nat (List.length l) <= Z.max 0 num_tweets)
  /\ (forall fuel, (max_scroll_attempts <= fuel)%nat ->
        scrape_tweets_upto drv fuel identifier is_url num_tweets verbose s0 = run)
  /\ (forall s,
        let s1 := set_seen_tweets ∅ (set_tweets [] s) in
        match collect drv max_scroll_attempts num_tweets s1 with
        | (Ok ex, s') =>
            stopped num_tweets ex s'
            /\ collect_and_return drv max_scroll_attempts num_tweets s1
               = (Ok (Some (tweets s')), s')
        | (Raise e, s') =>
            collect_and_return drv max_scroll_attempts num_tweets s1
            = (Raise e, s')
        end).
Proof.
  intros s0 run.
  assert (forall w1,
    let r := collect_and_return drv max_scroll_attempts num_tweets
               (set_world w1 (set_seen_tweets ∅ (set_tweets [] s0))) in
    ((scroll_count r.2 <= max_scroll_attempts)%nat
     /\ (consecutive_failed_scrolls r.2 <= max_consecutive_failures)%nat
     /\ Z.of_nat (List.length (tweets r.2)) <= Z.max 0 num_tweets)
    /\ (forall l, r.1 = Ok (Some l) ->
          l = tweets r.2 /\ Z.of_nat (List.length l) <= Z.max 0 num_tweets)) as Hloop.
  { intros w1 r. subst r s0. rewrite collect_and_return_eq. state_simpl.
    destruct (drv_execute_script drv ScrollHeight w1) as [[h|e] w2]; state_simpl.
    2:{ unfold max_scroll_attempts, max_consecutive_failures.
        split; [simpl; lia | discriminate]. }
    destruct (while_loop_from_start drv max_scroll_attempts num_tweets w2 ∅ h)
      as (Htw & Hcf & Hsc & _).
    unfold at_most in Htw.
    destruct (while_loop drv _ _ _) as [[ex|e] s']; cbn [fst snd] in *.
    - split; [tauto|]. intros l [= <-].
      rewrite py_slice_to_all by exact Htw. tauto.
    - split; [tauto | discriminate]. }
  assert (forall w1, let sw := set_world w1 s0 in
    (scroll_count sw <= max_scroll_attempts)%nat
    /\ (consecutive_failed_scrolls sw <= max_consecutive_failures)%nat
    /\ Z.of_nat (List.length (tweets sw)) <= Z.max 0 num_tweets) as Hidle.
  { intros w1. unfold max_scroll_attempts, max_consecutive_failures. simpl. lia. }
  split; [|split; [|split]].
  - (* the bounds *)
    subst run. unfold scrape_tweets. rewrite scrape_tweets_upto_eq.
    destruct (drv_get drv _ _) as [[[]|e] w1]; [|apply Hidle].
    destruct (drv_wait_presence drv ProtectedSpan w1) as [[el|e] w2]; [apply Hidle|].
    destruct (is_timeout e); [|apply Hidle].
    destruct (drv_wait_presence drv TweetArticle w2) as [[el|e'] w3];
      [apply Hloop|].
    destruct (is_timeout e'); apply (Hidle w3).
  - (* the returned list *)
    subst run. unfold scrape_tweets. rewrite scrape_tweets_upto_eq.
    destruct (drv_get drv _ _) as [[[]|e] w1]; [|discriminate].
    destruct (drv_wait_presence drv ProtectedSpan w1) as [[el|e] w2]; [discriminate|].
    destruct (is_timeout e); [|discriminate].
    destruct (drv_wait_presence drv TweetArticle w2) as [[el|e'] w3];
      [apply Hloop|].
    destruct (is_timeout e'); [|discriminate].
    intros l [= <-]. state_simpl. split; [reflexivity | simpl; lia].
  - (* fuel *)
    intros fuel Hfuel. subst run. unfold scrape_tweets.
    rewrite !scrape_tweets_upto_eq.
    destruct (drv_get drv _ _) as [[[]|e] w1]; [|reflexivity].
    destruct (drv_wait_presence drv ProtectedSpan w1) as [[el|e] w2]; [reflexivity|].
    destruct (is_timeout e); [|reflexivity].
    destruct (drv_wait_presence drv TweetArticle w2) as [[el|e'] w3]; [|reflexivity].
    rewrite !collect_and_return_eq.
    destruct (drv_execute_script drv ScrollHeight _) as [[h|e'] w4]; [|reflexivity].
    rewrite (while_loop_fuel drv fuel max_scroll_attempts); state_simpl;
      [reflexivity | lia | lia].
  - (* why the loop ends *)
    intros s s1. rewrite collect_eq, collect_and_return_eq. subst s1. state_simpl.
    destruct (drv_execute_script drv ScrollHeight (world s)) as [[h|e] w1];
      [|reflexivity].
    destruct (while_loop_from_start drv max_scroll_attempts num_tweets w1 ∅ h)
      as (Htw & _ & _ & Hend).
    unfold at_most in Htw.
    destruct (while_loop drv _ _ _) as [[ex|e] s']; state_simpl; [|reflexivity].
    split.
    + eapply loop_end_stopped; [|exact Hend]. reflexivity.
    + now rewrite py_slice_to_all by exact Htw.
Qed.

End Bounds.

(** ** The seen set and the collected texts *)

Section Dedup.
Context {W E : Type} (drv : Driver W E).
Implicit Types (s : state W).

Lemma session_rel_seen_covers s s' :
  session_rel s s' -> seen_covers s -> seen_covers s'.
Proof.
  unfold seen_covers. intros [_ (new & -> & Hsize) _] H.
  rewrite length_app. lia.
Qed.

Lemma scan_rel_session_rel s s' : scan_rel s s' -> session_rel s s'.
Proof. intros [? ? ? ? ? Hsc]. split; try assumption. lia. Qed.

(** C1 (amended). At every observation point of a session the collected
    texts are at most as many as the identities in the seen set: after any
    number [fuel] of iterations of the main loop of [scrape_tweets], and,
    from any state where this holds, after the [for] loop has gone through
    any list of rendered posts and after any iteration of the main loop.
    Equality is not kept: an identity is added to the seen set before the
    text of its post is read. *)
Theorem seen_covers_collected fuel identifier is_url num_tweets verbose w seen :
  seen_covers
    (scrape_tweets_upto drv fuel identifier is_url num_tweets verbose
       (entry w seen)).2
  /\ (forall tweet_elements s,
        seen_covers s -> seen_covers (for_tweets drv num_tweets tweet_elements s).2)
  /\ (forall s, seen_covers s -> seen_covers (loop_body drv num_tweets s).2).
Proof.
  split; [|split].
  - rewrite scrape_tweets_upto_eq. state_simpl.
    assert (forall w1, seen_covers (set_world w1 (entry w seen))) as Hidle.
    { intros w1. unfold seen_covers. simpl. lia. }
    assert (forall w1, seen_covers
              (set_world w1 (set_seen_tweets ∅ (set_tweets [] (entry w seen)))))
      as Hreset.
    { intros w1. unfold seen_covers. simpl. lia. }
    destruct (drv_get drv _ _) as [[[]|e] w1]; [|apply Hidle].
    destruct (drv_wait_presence drv ProtectedSpan w1) as [[el|e] w2]; [apply Hidle|].
    destruct (is_timeout e); [|apply Hidle].
    destruct (drv_wait_presence drv TweetArticle w2) as [[el|e'] w3].
    2:{ destruct (is_timeout e'); apply Hreset. }
    rewrite collect_and_return_eq. state_simpl.
    destruct (drv_execute_script drv ScrollHeight w3) as [[h|e'] w4];
      [|apply Hreset].
    pose proof (while_loop_session_rel drv fuel num_tweets
                  (mkState w4 ∅ [] h O O O)) as Hrel.
    apply session_rel_seen_covers in Hrel; [|unfold seen_covers; simpl; lia].
    destruct (while_loop drv fuel num_tweets _) as [[ex|e'] s']; exact Hrel.
  - intros els s. apply session_rel_seen_covers, scan_rel_session_rel,
      for_tweets_scan_rel.
  - intros s. eapply session_rel_seen_covers, iteration_session_rel,
      loop_body_iteration.
Qed.

(** The body of the [for] loop, statement by statement. *)
Lemma process_tweet_eq num el s :
  process_tweet drv num el s =
  match get_tweet_id drv el s with
  | (Raise e, s1) => absorb e s1
  | (Ok tweet_id, s1) =>
      if bool_decide (tweet_id ∈ seen_tweets s1) then (Ok false, s1)
      else
        let s2 := set_seen_tweets ({[tweet_id]} ∪ seen_tweets s1) s1 in
        match el_find_elements drv el TweetText (world s2) with
        | (Raise e, w3) => absorb e (set_world w3 s2)
        | (Ok parts, w3) =>
            match element_texts drv parts (set_world w3 s2) with
            | (Raise e, s4) => absorb e s4
            | (Ok texts, s4) =>
                let full_text := PyStr.join " " texts in
                if PyStr.truthy full_text then
                  (Ok (num <=? Z.of_nat (List.length (tweets s4 ++ [full_text]))),
                   set_tweets (tweets s4 ++ [full_text]) s4)
                else (Ok false, s4)
            end
        end
  end.
Proof.
  unfold process_tweet, try_except, absorb. unfold bind at 1.
  destruct (get_tweet_id drv el s) as [[tweet_id|e] s1]; [|reflexivity].
  unfold bind at 1, get_state.
  destruct (bool_decide (tweet_id ∈ seen_tweets s1)); [reflexivity|].
  unfold bind at 1, modify. unfold bind at 1, call. state_simpl.
  destruct (el_find_elements drv el TweetText (world s1)) as [[parts|e] w3];
    [|reflexivity].
  unfold bind at 1.
  destruct (element_texts drv parts _) as [[texts|e] s4]; [|reflexivity].
  cbv zeta. destruct (PyStr.truthy _); [|reflexivity].
  unfold bind, modify, get_state.
  destruct (num <=? _); reflexivity.
Qed.

(** C10. Seen-set dominance.  For every pass of the [for] body over a
    rendered post: (1) if the seen set covers the collected texts before, it
    does after; (2) the seen set only grows, also over any number of
    iterations of the main loop; (3) when the identity of the post is
    resolved, it is in the seen set afterwards; if it was already there,
    nothing is appended, whatever text the post now has; if it was not and
    the text read from the post is empty, the identity is added and nothing
    is appended, so the seen set becomes strictly larger than the
    collection grew. *)
Theorem seen_before_text num_tweets tweet s :
  let run := process_tweet drv num_tweets tweet s in
  (seen_covers s -> seen_covers run.2)
  /\ seen_tweets s ⊆ seen_tweets run.2
  /\ (forall fuel, seen_tweets s ⊆ seen_tweets (while_loop drv fuel num_tweets s).2)
  /\ (forall tweet_id s1,
        get_tweet_id drv tweet s = (Ok tweet_id, s1) ->
        tweet_id ∈ seen_tweets run.2
        /\ (tweet_id ∈ seen_tweets s -> tweets run.2 = tweets s)
        /\ (tweet_id ∉ seen_tweets s ->
            forall parts w3 texts s4,
              el_find_elements drv tweet TweetText (world s1) = (Ok parts, w3) ->
              element_texts drv parts
                (set_world w3 (set_seen_tweets ({[tweet_id]} ∪ seen_tweets s) s))
                = (Ok texts, s4) ->
              PyStr.join " " texts = EmptyString ->
              tweets run.2 = tweets s
              /\ size (seen_tweets run.2) = S (size (seen_tweets s)))).
Proof.
  intros run.
  pose proof (tweet_step_scan_rel _ _ _ _ (process_tweet_step drv num_tweets tweet s))
    as Hrel.
  split; [|split; [|split]].
  - apply session_rel_seen_covers, scan_rel_session_rel, Hrel.
  - apply Hrel.
  - intros fuel. apply while_loop_session_rel.
  - intros tweet_id s1 Hid. subst run. rewrite process_tweet_eq, Hid.
    pose proof (get_tweet_id_world_only drv tweet s) as Hs1.
    rewrite Hid in Hs1. unfold world_only in Hs1. simpl in Hs1.
    rewrite Hs1. state_simpl.
    destruct (bool_decide_reflect (tweet_id ∈ seen_tweets s)) as [Hin|Hnotin].
    { state_simpl. split; [exact Hin | split; [reflexivity | tauto]]. }
    cbv zeta. state_simpl.
    split; [|split; [tauto|]].
    + destruct (el_find_elements drv tweet TweetText (world s1)) as [[parts|e] w3].
      2:{ unfold absorb. destruct (element_gone e); state_simpl; set_solver. }
      match goal with |- context [element_texts drv parts ?st] =>
        pose proof (element_texts_world_only drv parts st) as H4;
        destruct (element_texts drv parts st) as [[texts|e] s4] end;
        unfold world_only in H4; simpl in H4; rewrite H4.
      2:{ unfold absorb. destruct (element_gone e); state_simpl; set_solver. }
      destruct (PyStr.truthy _); state_simpl; set_solver.
    + intros _ parts w3 texts s4 Hparts Htexts Hempty.
      pose proof (element_texts_world_only drv parts
        (set_world w3 (set_seen_tweets ({[tweet_id]} ∪ seen_tweets s) s))) as H4.
      rewrite Htexts in H4. unfold world_only in H4.
      state_simpl. rewrite Hparts.
      change (set_world w3 (set_seen_tweets ({[tweet_id]} ∪ seen_tweets s)
                              (set_world (world s1) s)))
        with (set_world w3 (set_seen_tweets ({[tweet_id]} ∪ seen_tweets s) s)).
      rewrite Htexts, Hempty. simpl.
      rewrite H4. state_simpl.
      split; [reflexivity | now apply size_mark].
Qed.

End Dedup.

(** ** The counters *)

Section Counters.
Context {W E : Type} (drv : Driver W E).
Implicit Types (s : state W).

(** C5 (amended). Within a session [scroll_count] never decreases: every
    iteration of the main loop adds exactly one to it, whether the iteration
    completes or raises, and over any number of iterations it is at least
    what it was.  [consecutive_failed_scrolls] is not monotone: an
    iteration that appends nothing leaves it unchanged or adds one to it,
    and an iteration that appends at least one text and completes resets it
    to zero. *)
Theorem counters_across_iterations num_tweets s :
  let run := loop_body drv num_tweets s in
  scroll_count run.2 = S (scroll_count s)
  /\ (forall fuel,
        (scroll_count s <= scroll_count (while_loop drv fuel num_tweets s).2)%nat)
  /\ (tweets run.2 = tweets s ->
        (consecutive_failed_scrolls s <= consecutive_failed_scrolls run.2
         <= S (consecutive_failed_scrolls s))%nat)
  /\ ((List.length (tweets s) < List.length (tweets run.2))%nat ->
        forall c, run.1 = Ok c -> consecutive_failed_scrolls run.2 = O).
Proof.
  intros run.
  destruct (loop_body_iteration drv num_tweets s)
    as [Hsc _ (new & Htw & _ & Hcf) _ _].
  fold run in Hsc, Htw, Hcf.
  split; [exact Hsc | split; [|split]].
  - intros fuel. apply while_loop_session_rel.
  - intros Hsame.
    assert (new = []) as ->.
    { rewrite Hsame in Htw. rewrite <- (app_nil_r (tweets s)) in Htw at 1.
      now apply app_inv_head in Htw. }
    destruct Hcf as [[-> _] | [[_ ->] | [Hne _]]]; [lia | lia | congruence].
  - intros Hmore c Hc.
    assert (new <> []) as Hne.
    { intros ->. rewrite Htw, app_nil_r in Hmore. lia. }
    destruct Hcf as [[_ [-> | [e He]]] | [[-> _] | [_ H0]]];
      try congruence; exact H0.
Qed.

(** C7 (amended). The counter update of an iteration.  The body of the
    main loop first scans the rendered posts.  When the scan completes,
    [tweets_before] is the number of texts collected when the iteration
    began, the update step is applied to the difference
    [new_tweets_count], which is not negative, and the body goes on from
    the updated state: a difference of zero adds one to both
    [no_new_tweets_count] and [consecutive_failed_scrolls], a positive one
    sets both to zero, and the update touches nothing else.  When the
    enumeration of the posts raises a staleness error the iteration is
    abandoned: nothing is appended and neither counter changes. *)
Theorem counter_update_rule num_tweets s :
  let scan := scan_tweets drv num_tweets (set_scroll_count (S (scroll_count s)) s) in
  match scan.1 with
  | Ok (Some tweets_before) =>
      let new_tweets_count :=
        Z.of_nat (List.length (tweets scan.2)) - Z.of_nat tweets_before in
      let upd := (update_counters new_tweets_count scan.2).2 in
      tweets_before = List.length (tweets s)
      /\ 0 <= new_tweets_count
      /\ loop_body drv num_tweets s = finish_iteration drv num_tweets upd
      /\ (new_tweets_count = 0 ->
          no_new_tweets_count upd = S (no_new_tweets_count s)
          /\ consecutive_failed_scrolls upd = S (consecutive_failed_scrolls s))
      /\ (0 < new_tweets_count ->
          no_new_tweets_count upd = O /\ consecutive_failed_scrolls upd = O)
      /\ world upd = world scan.2
      /\ seen_tweets upd = seen_tweets scan.2
      /\ tweets upd = tweets scan.2
      /\ last_height upd = last_height scan.2
      /\ scroll_count upd = scroll_count scan.2
  | Ok None =>
      loop_body drv num_tweets s = (Ok Continue, scan.2)
      /\ tweets scan.2 = tweets s
      /\ no_new_tweets_count scan.2 = no_new_tweets_count s
      /\ consecutive_failed_scrolls scan.2 = consecutive_failed_scrolls s
  | Raise e => loop_body drv num_tweets s = (Raise e, scan.2)
  end.
Proof.
  intros scan. rewrite loop_body_eq. fold scan.
  pose proof (scan_tweets_outcome drv num_tweets
                (set_scroll_count (S (scroll_count s)) s)) as Hscan.
  fold scan in Hscan.
  destruct scan as [r1 s1]. cbn [fst snd] in *.
  inversion Hscan as [s1' Hw | s1' Hrel Hb | e s1' Hrel Hb]; subst; clear Hscan.
  - rewrite Hw. state_simpl. auto.
  - destruct Hrel as [_ (new & Htw & _) _ Hnn Hcf _]. state_simpl.
    rewrite update_counters_eq. cbn [snd]. rewrite Htw, length_app.
    split; [reflexivity | split; [lia | split; [reflexivity|]]].
    destruct (Z.eqb_spec (Z.of_nat (List.length (tweets s) + List.length new)
                          - Z.of_nat (List.length (tweets s))) 0) as [Hz|Hnz];
      state_simpl; rewrite ?Hnn, ?Hcf; repeat split; intros;
      try reflexivity; try lia; exact Htw.
  - reflexivity.
Qed.

End Counters.

(** ** The paths that end before the main loop *)

Section Access.
Context {W E : Type} (drv : Driver W E).
Implicit Types (s : state W).

(** C3. Private short-circuit.  When navigation returns and the wait for
    the privacy marker finds it, [scrape_tweets] returns [None] and the
    state is the one of entry but for the world, which is the world right
    after that wait: no further call is made on the driver, so no element
    is enumerated and no scroll performed, nothing is collected,
    [scroll_count] is untouched and [self.seen_tweets] is not even reset. *)
Theorem private_short_circuit identifier is_url num_tweets verbose s w1 el w2 :
  drv_get drv (get_profile_url identifier is_url) (world s) = (Ok tt, w1) ->
  drv_wait_presence drv ProtectedSpan w1 = (Ok el, w2) ->
  scrape_tweets drv identifier is_url num_tweets verbose s
  = (Ok None, set_world w2 s).
Proof.
  intros Hget Hwait. unfold scrape_tweets.
  now rewrite scrape_tweets_upto_eq, Hget, Hwait.
Qed.

Lemma catch_all_returns {A} (m : M W A) (a : A) s :
  exists r, (try_except m any_exception (ret a) s).1 = Ok r.
Proof.
  unfold try_except. destruct (m s) as [[x|e] s']; simpl; eauto.
Qed.

(** C4 (amended). Navigation failure.  When [driver.get] returns and no
    marker shows up before the waits time out, [scrape_tweets] returns the
    empty list and [scrape_profile_info] returns [None], and
    [scrape_profile_info] raises nothing once [driver.get] has returned.
    An exception raised by [driver.get] itself is not caught by
    [scrape_tweets]: the call raises it. *)
Theorem navigation_failure identifier is_url num_tweets verbose s :
  let url := get_profile_url identifier is_url in
  (forall e w1,
     drv_get drv url (world s) = (Raise e, w1) ->
     scrape_tweets drv identifier is_url num_tweets verbose s
     = (Raise e, set_world w1 s))
  /\ (forall w1 w2 w3,
        drv_get drv url (world s) = (Ok tt, w1) ->
        drv_wait_presence drv ProtectedSpan w1 = (Raise TimeoutException, w2) ->
        drv_wait_presence drv TweetArticle w2 = (Raise TimeoutException, w3) ->
        (scrape_tweets drv identifier is_url num_tweets verbose s).1 = Ok (Some []))
  /\ (forall w1 w2,
        drv_get drv url (world s) = (Ok tt, w1) ->
        drv_wait_presence drv PrimaryColumn w1 = (Raise TimeoutException, w2) ->
        scrape_profile_info drv identifier is_url s = (Ok None, set_world w2 s))
  /\ (forall w1,
        drv_get drv url (world s) = (Ok tt, w1) ->
        exists r, (scrape_profile_info drv identifier is_url s).1 = Ok r).
Proof.
  intros url. subst url. split; [|split; [|split]].
  - intros e w1 Hget. unfold scrape_tweets.
    now rewrite scrape_tweets_upto_eq, Hget.
  - intros w1 w2 w3 Hget Hp Ht. unfold scrape_tweets.
    now rewrite scrape_tweets_upto_eq, Hget, Hp, Ht.
  - intros w1 w2 Hget Hp.
    unfold scrape_profile_info, try_except, bind, call.
    rewrite Hget. state_simpl. now rewrite Hp.
  - intros w1 Hget. unfold scrape_profile_info. unfold bind at 1, call.
    rewrite Hget. apply catch_all_returns.
Qed.

(** A session does not read what earlier sessions left behind: two
    sessions started in the same world return the same value and leave the
    same world, whatever [self.seen_tweets] and the locals held at entry. *)
Lemma scrape_tweets_fresh identifier is_url num_tweets verbose w s1 s2 :
  let run1 := scrape_tweets drv identifier is_url num_tweets verbose (set_world w s1) in
  let run2 := scrape_tweets drv identifier is_url num_tweets verbose (set_world w s2) in
  run1.1 = run2.1 /\ world run1.2 = world run2.2.
Proof.
  intros run1 run2. subst run1 run2. unfold scrape_tweets.
  rewrite !scrape_tweets_upto_eq. state_simpl.
  destruct (drv_get drv _ w) as [[[]|e] w1]; [|split; reflexivity].
  destruct (drv_wait_presence drv ProtectedSpan w1) as [[el|e] w2];
    [split; reflexivity|].
  destruct (is_timeout e); [|split; reflexivity].
  destruct (drv_wait_presence drv TweetArticle w2) as [[el|e'] w3].
  2:{ destruct (is_timeout e'); split; reflexivity. }
  rewrite !collect_and_return_eq. state_simpl.
  destruct (drv_execute_script drv ScrollHeight w3) as [[h|e'] w4];
    [|split; reflexivity].
  destruct (while_loop drv _ _ _) as [[ex|e'] s']; split; reflexivity.
Qed.

End Access.

(** ** Sessions on the scripted driver *)

Section Sessions.

(** The feed of the specification's dedup test: the result is the four
    posts in order of first appearance. *)
Example rerendering_feed_result :
  (session max_scroll_attempts rerendering_feed).1 = Ok (Some ["a"; "b"; "c"; "d"]%string).
Proof. vm_compute. reflexivity. Qed.

(** Stall termination: the feed dries up after the first scan, and the
    session ends after eight more scans with what the first one
    collected. *)
Example drying_feed_result :
  (session max_scroll_attempts drying_feed).1 = Ok (Some ["a"; "b"]%string)
  /\ scroll_count (session max_scroll_attempts drying_feed).2 = 9%nat
  /\ consecutive_failed_scrolls (session max_scroll_attempts drying_feed).2 = 8%nat.
Proof. vm_compute. repeat split; reflexivity. Qed.

(** Target reached within a scan: the posts rendered after the second one
    are not collected. *)
Example target_reached_result :
  (scrape_tweets Mock.driver "jack" false 2 false (entry rerendering_feed ∅)).1
  = Ok (Some ["a"; "b"]%string).
Proof. vm_compute. reflexivity. Qed.

(** A post first rendered without text is never collected, though its text
    is there on the next render. *)
Example late_text_never_collected :
  (session max_scroll_attempts late_text_feed).1 = Ok (Some ["hello"%string])
  /\ elements (seen_tweets (session max_scroll_attempts late_text_feed).2)
     = ["1"; "2"]%string.
Proof. vm_compute. split; reflexivity. Qed.

(** A second session of the same scraper, against the same feed, returns
    what the first one did, though the first left its identities in
    [self.seen_tweets]. *)
Example second_session_same_result :
  (scrape_tweets Mock.driver "jack" false 10 false
     (set_world rerendering_feed (session max_scroll_attempts rerendering_feed).2)).1
  = (session max_scroll_attempts rerendering_feed).1.
Proof. vm_compute. reflexivity. Qed.

(** C1, counterexample.  One post without text: at the end of the session
    nothing is collected and the seen set holds one identity. *)
Lemma dedup_equality_fails :
  (session max_scroll_attempts empty_text_feed).1 = Ok (Some [])
  /\ List.length (tweets (session max_scroll_attempts empty_text_feed).2) = O
  /\ size (seen_tweets (session max_scroll_attempts empty_text_feed).2) = 1%nat.
Proof. vm_compute. repeat split; reflexivity. Qed.

(** C5, counterexample.  After the first iteration
    [consecutive_failed_scrolls] is one, after the second it is back to
    zero. *)
Lemma consecutive_stalls_reset_mid_session :
  scroll_count (session 1 late_text_feed).2 = 1%nat
  /\ consecutive_failed_scrolls (session 1 late_text_feed).2 = 1%nat
  /\ scroll_count (session 2 late_text_feed).2 = 2%nat
  /\ consecutive_failed_scrolls (session 2 late_text_feed).2 = O.
Proof. vm_compute. repeat split; reflexivity. Qed.

(** C7, counterexample.  The one iteration run appends nothing and leaves
    both counters at zero: the enumeration raised a staleness error. *)
Lemma stale_iteration_skips_update :
  scroll_count (session 1 stale_feed).2 = 1%nat
  /\ tweets (session 1 stale_feed).2 = []
  /\ no_new_tweets_count (session 1 stale_feed).2 = O
  /\ consecutive_failed_scrolls (session 1 stale_feed).2 = O.
Proof. vm_compute. repeat split; reflexivity. Qed.

(** C4, counterexample.  Navigation times out: the call raises. *)
Lemma navigation_timeout_raises :
  (scrape_tweets Mock.driver "jack" false 10 false (entry unreachable_profile ∅)).1
  = Raise TimeoutException.
Proof. vm_compute. reflexivity. Qed.

(** C4, on a page where no marker ever shows up: navigation returned, both
    operations give their empty answer. *)
Lemma navigation_failure_witness :
  (scrape_tweets Mock.driver "jack" false 10 false (entry blank_page ∅)).1
  = Ok (Some [])
  /\ (scrape_profile_info Mock.driver "jack" false (entry blank_page ∅)).1
     = Ok None.
Proof.
  destruct (navigation_failure Mock.driver "jack" false 10 false (entry blank_page ∅))
    as (_ & Htweets & Hinfo & _).
  split.
  - eapply Htweets; reflexivity.
  - erewrite Hinfo; reflexivity.
Defined.

(** C3, at a private profile: the log of the driver holds the navigation
    and the wait for the privacy marker, and nothing else. *)
Lemma private_short_circuit_witness :
  scrape_tweets Mock.driver "jack" false 10 false (entry private_profile ∅)
  = (Ok None,
     set_world
       (Mock.mkWorld (Ok tt) true true [Ok [Mock.post "1" "secret"]]
          [Mock.EvGet "https://x.com/jack"; Mock.EvWait ProtectedSpan])
       (entry private_profile ∅)).
Proof.
  apply (private_short_circuit Mock.driver "jack" false 10 false
           (entry private_profile ∅)
           (Mock.logged (Mock.EvGet "https://x.com/jack") private_profile)
           Mock.Marker); reflexivity.
Defined.

(** C10, at a post rendered without text, never seen before: its identity
    is marked and nothing is appended. *)
Lemma seen_before_text_witness :
  tweets (process_tweet Mock.driver 10 (Mock.post "1" "") (entry empty_text_feed ∅)).2 = []
  /\ size (seen_tweets
             (process_tweet Mock.driver 10 (Mock.post "1" "") (entry empty_text_feed ∅)).2)
     = 1%nat.
Proof.
  destruct (seen_before_text Mock.driver 10 (Mock.post "1" "") (entry empty_text_feed ∅))
    as (_ & _ & _ & H).
  edestruct (H "1"%string) as (_ & _ & Hmark).
  { vm_compute. reflexivity. }
  eapply Hmark.
  - apply not_elem_of_empty.
  - vm_compute. reflexivity.
  - vm_compute. reflexivity.
  - reflexivity.
Defined.

End Sessions.

(** ** The profile address *)

Section ProfileUrl.

Lemma rstrip_by_cons p c s :
  p c = false ->
  PyStr.rstrip_by p (String c s) = String c (PyStr.rstrip_by p s).
Proof. intros H. simpl. rewrite H. now destruct (PyStr.rstrip_by p s). Qed.

Lemma startswith_app p s :
  PyStr.startswith p s = true -> s = p +:+ Re.drop (String.length p) s.
Proof.
  revert s. induction p as [|a p IH]; intros s H; simpl in *.
  - now destruct s.
  - destruct s as [|b s]; [discriminate|].
    apply andb_prop in H as [Hab Hp].
    apply Ascii.eqb_eq in Hab as ->.
    change (String b s = String b (p +:+ Re.drop (String.length p) s)).
    f_equal. now apply IH.
Qed.

Lemma lstrip_at_no_mention s : PyStr.startswith "@" (PyStr.lstrip_at s) = false.
Proof.
  unfold PyStr.lstrip_at. induction s as [|c s IH]; [reflexivity|].
  cbn [PyStr.lstrip_by]. destruct (Ascii.eqb "@" c) eqn:Hc; [exact IH|].
  cbn [PyStr.startswith]. now rewrite Hc.
Qed.

Lemma replace_keeps_scheme url :
  PyStr.startswith "http://" url || PyStr.startswith "https://" url = true ->
  PyStr.startswith "http://" (PyStr.replace "twitter.com" "x.com" url)
  || PyStr.startswith "https://" (PyStr.replace "twitter.com" "x.com" url) = true.
Proof.
  intros H. apply orb_prop in H as [H|H]; apply startswith_app in H;
    rewrite H; reflexivity.
Qed.

(** The two patterns at work. *)
Example extract_username_examples :
  extract_username_from_url "https://x.com/jack/status/20" = "jack"
  /\ extract_username_from_url "see http://www.twitter.com/jack?lang=en now" = "jack"
  /\ extract_username_from_url "twitter.com/" = "twitter.com/"
  /\ extract_username_from_url "@jack" = "@jack".
Proof. repeat split; reflexivity. Qed.

Example status_pattern_examples :
  Re.search status_re "https://x.com/jack/status/20/photo/1" = Some (Some "20")
  /\ Re.search status_re "https://x.com/jack/status/" = None
  /\ Re.search status_re "/status/x/status/77" = Some (Some "77").
Proof. repeat split; reflexivity. Qed.

(** C6 (amended). [get_profile_url] is a total function and its value
    always begins with [http://] or [https://].  For a bare handle it is
    [https://x.com/] followed by the handle stripped of surrounding white
    space and of every leading [@].  For a URL that, once stripped of
    surrounding white space, begins with a scheme, it is that URL with
    [twitter.com] replaced by [x.com] and nothing else changed: query
    parameters are kept.  For a URL of no recognised shape it is
    [https://x.com/] followed by what [extract_username_from_url] returns
    for the input. *)
Theorem get_profile_url_normalizes identifier is_url :
  let address := get_profile_url identifier is_url in
  let url := PyStr.strip identifier in
  PyStr.startswith "http://" address || PyStr.startswith "https://" address = true
  /\ (is_url = false ->
      address = "https://x.com/" +:+ PyStr.lstrip_at url
      /\ PyStr.startswith "@" (PyStr.lstrip_at url) = false)
  /\ (is_url = true ->
      PyStr.startswith "http://" url || PyStr.startswith "https://" url = true ->
      address = PyStr.replace "twitter.com" "x.com" url)
  /\ (is_url = true ->
      PyStr.startswith "http://" url || PyStr.startswith "https://" url = false ->
      PyStr.contains "x.com/" url || PyStr.contains "twitter.com/" url = false ->
      address = "https://x.com/" +:+ extract_username_from_url identifier).
Proof.
  intros address url. subst address url. unfold get_profile_url.
  split; [|split; [|split]].
  - destruct is_url; [|reflexivity].
    set (url := PyStr.strip identifier).
    destruct (PyStr.startswith "http://" url || PyStr.startswith "https://" url) eqn:Hs;
      [now apply replace_keeps_scheme|].
    destruct (PyStr.startswith "x.com/" url || PyStr.startswith "twitter.com/" url);
      [reflexivity|].
    destruct (PyStr.contains "x.com/" url || PyStr.contains "twitter.com/" url);
      [|reflexivity].
    (* the branch of line 87 is never taken *)
    apply orb_false_elim in Hs as [-> ->]. reflexivity.
  - intros ->. split; [reflexivity | apply lstrip_at_no_mention].
  - intros -> ->. reflexivity.
  - intros -> Hs Hc. rewrite Hs.
    destruct (PyStr.startswith "x.com/" _ || PyStr.startswith "twitter.com/" _) eqn:Hh.
    + exfalso. apply orb_false_elim in Hc as [Hc1 Hc2].
      apply orb_prop in Hh as [Hh|Hh].
      * destruct (PyStr.strip identifier); simpl in Hc1, Hh;
          rewrite Hh in Hc1; discriminate.
      * destruct (PyStr.strip identifier); simpl in Hc2, Hh;
          rewrite Hh in Hc2; discriminate.
    + now rewrite Hc.
Qed.

(** C6, at a handle with white space and mention markers around it, and at
    a URL with a query string. *)
Lemma get_profile_url_normalizes_witness :
  get_profile_url "  @@jack " false = "https://x.com/jack"
  /\ get_profile_url " https://twitter.com/jack?lang=en " true
     = "https://x.com/jack?lang=en".
Proof.
  split.
  - destruct (get_profile_url_normalizes "  @@jack " false) as (_ & H & _).
    destruct (H eq_refl) as [-> _]. reflexivity.
  - destruct (get_profile_url_normalizes " https://twitter.com/jack?lang=en " true)
      as (_ & _ & H & _).
    cbv zeta in H. rewrite H; reflexivity.
Defined.

(** C6, counterexample.  Query parameters survive, in a URL and in a bare
    handle alike, and a URL of no recognised shape is used as it was given,
    white space included. *)
Lemma query_parameters_kept :
  get_profile_url "https://twitter.com/jack?lang=en" true = "https://x.com/jack?lang=en"
  /\ get_profile_url "@jack?lang=en" false = "https://x.com/jack?lang=en"
  /\ get_profile_url " jack " true = "https://x.com/ jack ".
Proof. repeat split; reflexivity. Qed.

(** C8. Domain-form equivalence.  For every profile path and every shape
    of URL (scheme [https://], [http://] or none, with or without [www.]),
    the [twitter.com] form and the [x.com] form of the URL resolve to the
    same address, and that address is on [x.com]: it is the scheme
    ([https://] when none was given), [www.] if it was there, then
    [x.com/] and the path without trailing white space, in which any
    further [twitter.com] is replaced as well. *)
Theorem domain_forms_equivalent (path : string) :
  Forall (fun form : string * string =>
    get_profile_url (form.1 +:+ "twitter.com/" +:+ path) true
    = get_profile_url (form.1 +:+ "x.com/" +:+ path) true
    /\ get_profile_url (form.1 +:+ "x.com/" +:+ path) true
       = form.2 +:+ "x.com/"
         +:+ PyStr.replace "twitter.com" "x.com" (PyStr.rstrip_by PyStr.is_space path))
    host_forms.
Proof.
  unfold host_forms.
  repeat first [apply List.Forall_nil | apply List.Forall_cons];
    cbv [fst snd];
    match goal with |- ?tw = ?x /\ ?x = ?canon =>
      enough (tw = canon /\ x = canon) as [-> ->]; [split; reflexivity | split]
    end;
    cbv [String.append]; unfold get_profile_url, PyStr.strip;
    repeat rewrite rstrip_by_cons by reflexivity;
    generalize (PyStr.rstrip_by PyStr.is_space path); intros rest;
    repeat step_if; reflexivity.
Qed.

End ProfileUrl.

(** ** Strings: concatenation, prefixes and occurrences *)

Section StringFacts.

Lemma str_cons_app c s t : String c s +:+ t = String c (s +:+ t).
Proof. reflexivity. Qed.
Lemma str_app_nil s : s +:+ EmptyString = s.
Proof. induction s as [|c s IH]; [reflexivity|]. now rewrite str_cons_app, IH. Qed.
Lemma drop_app s t : Re.drop (String.length s) (s +:+ t) = t.
Proof. induction s as [|c s IH]; [now destruct t|]. rewrite ?str_cons_app. simpl. exact IH. Qed.

End StringFacts.

(** ** The matcher is sound: what it accepts is in the language of the
    pattern, and what it captures is a match of a group *)

Section Patterns.





End Patterns.

(** ** [extract_username_from_url] *)

Section Usernames.





















End Usernames.

(** ** [get_profile_url] *)

Section Addresses.








(** [replace] leaves no occurrence of [twitter.com]: an occurrence in the
    result would have to start in the text of the subject, since [x.com] has
    no character but [x] to contribute and [twitter.com] has no [x]. *)
Lemma replace_from_skip old new k c s :
  PyStr.replace_from old new (S k) (String c s) = PyStr.replace_from old new k s.
Proof. reflexivity. Qed.










End Addresses.

(** ** Identities and collected texts are never empty *)

Section Texts.
Context {W E : Type} (drv : Driver W E).
Implicit Types (s : state W).




#[export] Instance keeps_texts_preorder : PreOrder (@keeps_texts W).
Proof. split; unfold keeps_texts; [intros s; auto | intros s1 s2 s3; auto]. Qed.











End Texts.

(** ** The two stall counters *)

Section Stalls.
Context {W E : Type} (drv : Driver W E).
Implicit Types (s : state W).

#[export] Instance counters_kept_preorder : PreOrder (@counters_kept W).
Proof.
  split; unfold counters_kept.
  - intros s. auto.
  - intros s1 s2 s3 [] []. split; congruence.
Qed.












End Stalls.

(** ** [scrape_profile_info] *)

Section Profile.
Context {W E : Type} (drv : Driver W E).
Implicit Types (s : state W).







End Profile.

(** ** Feeds that never yield a post *)

Section Feeds.
Context {W E : Type} (drv : Driver W E).
Implicit Types (s : state W).

Lemma returns_ret {A} (a : A) : returns (@ret W A a).
Proof. intros s. now exists a. Qed.

Lemma returns_modify (f : state W -> state W) : returns (modify f).
Proof. intros s. now exists tt. Qed.

Lemma returns_get_state : returns (@get_state W).
Proof. intros s. now exists s. Qed.

Lemma returns_bind {A B} (m : M W A) (k : A -> M W B) :
  returns m -> (forall a, returns (k a)) -> returns (bind m k).
Proof.
  intros Hm Hk s. unfold bind. destruct (Hm s) as [a Ha].
  destruct (m s) as [[a'|e] s1]; cbn [fst] in Ha; [|discriminate].
  apply Hk.
Qed.

Lemma returns_call {A} (op : W -> result A * W) :
  (forall w, exists a, (op w).1 = Ok a) -> returns (call op).
Proof.
  intros H s. unfold call. destruct (H (world s)) as [a Ha].
  destruct (op (world s)) as [r w]. now exists a.
Qed.

Lemma returns_ask {A} (op : W -> A * W) : returns (ask op).
Proof. intros s. unfold ask. destruct (op (world s)) as [a w]. now exists a. Qed.

Lemma returns_catch_all {A} (m h : M W A) :
  returns h -> returns (try_except m any_exception h).
Proof.
  intros Hh s. unfold try_except. destruct (m s) as [[a|e] s1]; cbn [fst].
  - now exists a.
  - apply Hh.
Qed.

Lemma returns_sleep : returns (sleep drv).
Proof. intros s. now exists tt. Qed.

Lemma returns_click_buttons buttons : returns (click_buttons drv buttons).
Proof.
  induction buttons as [|b buttons IH]; cbn [click_buttons].
  - apply returns_ret.
  - apply returns_bind; [|intros ?; exact IH].
    apply returns_catch_all, returns_ret.
Qed.

End Feeds.

Ltac returns_step :=
  lazymatch goal with
  | |- returns (bind _ _) => apply returns_bind; [|intros ?]
  | |- returns (try_except _ any_exception _) => apply returns_catch_all
  | |- returns (ret _) => apply returns_ret
  | |- returns get_state => apply returns_get_state
  | |- returns (modify _) => apply returns_modify
  | |- returns (ask _) => apply returns_ask
  | |- returns (sleep _) => apply returns_sleep
  | |- returns (if ?b then _ else _) => destruct b
  | |- returns (match ?x with _ => _ end) => destruct x
  end.

(** *** A page on which the scripts run *)

Section Scripts.
Context {W E : Type} (drv : Driver W E).
Implicit Types (s : state W).
Hypothesis Hscript : forall js w, exists h, (drv_execute_script drv js w).1 = Ok h.

Lemma returns_script js : returns (call (drv_execute_script drv js)).
Proof. apply returns_call, Hscript. Qed.

Lemma finish_iteration_returns num : returns (finish_iteration drv num).
Proof.
  unfold finish_iteration, alternative_strategy, regular_strategy,
    check_page_height, perform_scroll.
  repeat first [returns_step | apply returns_script].
Qed.

End Scripts.

(** *** No post is ever rendered *)

Section Barren.
Context {W E : Type} (drv : Driver W E).
Implicit Types (s : state W).
Hypothesis Hfind : forall w, (drv_find_elements drv TweetArticle w).1 = Ok [].
Hypothesis Hscript : forall js w, exists h, (drv_execute_script drv js w).1 = Ok h.





End Barren.


(** *** Every enumeration of the posts goes stale *)

Section Stale.
Context {W E : Type} (drv : Driver W E).
Implicit Types (s : state W).
Hypothesis Hstale :
  forall w, (drv_find_elements drv TweetArticle w).1 = Raise StaleElementReferenceException.




End Stale.


(** ** A stop of the loop is a result, not an error *)

Section Handled.
Context {W E : Type} (drv : Driver W E).
Implicit Types (s : state W).

Lemma raises_only_returns {A} classes (m : M W A) :
  returns m -> raises_only classes m.
Proof. intros H s e He. destruct (H s) as [a Ha]. congruence. Qed.

Lemma raises_only_bind {A B} classes (m : M W A) (k : A -> M W B) :
  raises_only classes m -> (forall a, raises_only classes (k a)) ->
  raises_only classes (bind m k).
Proof.
  intros Hm Hk s e. unfold bind. specialize (Hm s).
  destruct (m s) as [[a|e'] s1]; cbn [fst] in *.
  - apply Hk.
  - intros [= <-]. now apply Hm.
Qed.

Lemma raises_only_call {A} classes (op : W -> result A * W) :
  (forall w e, (op w).1 = Raise e -> classes e = true) ->
  raises_only classes (call op).
Proof.
  intros H s e. unfold call. specialize (H (world s)).
  destruct (op (world s)) as [r w]. apply H.
Qed.

Lemma returns_try {A} classes (m h : M W A) :
  raises_only classes m -> returns h -> returns (try_except m classes h).
Proof.
  intros Hm Hh s. unfold try_except. specialize (Hm s).
  destruct (m s) as [[a|e] s1]; cbn [fst] in *.
  - now exists a.
  - rewrite (Hm e eq_refl). apply Hh.
Qed.

End Handled.

Ltac raises_step :=
  lazymatch goal with
  | |- raises_only _ (bind _ _) => apply raises_only_bind; [|intros ?]
  | |- raises_only _ (ret _) => apply raises_only_returns, returns_ret
  | |- raises_only _ (modify _) => apply raises_only_returns, returns_modify
  | |- raises_only _ get_state => apply raises_only_returns, returns_get_state
  | |- raises_only _ (ask _) => apply raises_only_returns, returns_ask
  | |- raises_only _ (if ?b then _ else _) => destruct b
  | |- raises_only _ (match ?x with _ => _ end) => destruct x
  end.

Section Success.
Context {W E : Type} (drv : Driver W E).
Implicit Types (s : state W).
Hypothesis Hdrv : handled drv.

Lemma element_texts_raises parts :
  raises_only element_gone (element_texts drv parts).
Proof.
  induction parts as [|p parts IH]; cbn [element_texts].
  - raises_step.
  - repeat raises_step; [|exact IH].
    apply raises_only_call. apply (handled_text drv Hdrv).
Qed.

Lemma get_tweet_id_returns tweet_element : returns (get_tweet_id drv tweet_element).
Proof.
  unfold get_tweet_id.
  apply returns_bind.
  { apply returns_try; [|apply returns_ret].
    repeat raises_step.
    - apply raises_only_call, (handled_el_find drv Hdrv).
    - apply raises_only_call, (handled_href drv Hdrv). }
  intros [tweet_id|]; [apply returns_ret|].
  apply returns_bind.
  { apply returns_try; [|apply returns_ret].
    repeat raises_step.
    - apply raises_only_call, (handled_el_finds drv Hdrv).
    - apply element_texts_raises. }
  intros [tweet_id|]; [apply returns_ret|].
  repeat returns_step.
Qed.

Lemma process_tweet_returns num tweet : returns (process_tweet drv num tweet).
Proof.
  unfold process_tweet. apply returns_try; [|apply returns_ret].
  repeat raises_step.
  - apply raises_only_returns, get_tweet_id_returns.
  - apply raises_only_call, (handled_el_finds drv Hdrv).
  - apply element_texts_raises.
Qed.

Lemma for_tweets_returns num els : returns (for_tweets drv num els).
Proof.
  induction els as [|el els IH]; cbn [for_tweets].
  - apply returns_ret.
  - apply returns_bind; [apply process_tweet_returns|].
    intros [|]; [apply returns_ret | exact IH].
Qed.

Lemma scan_tweets_returns num : returns (scan_tweets drv num).
Proof.
  unfold scan_tweets. apply returns_try; [|repeat returns_step].
  repeat raises_step.
  - apply raises_only_call, (handled_articles drv Hdrv).
  - apply raises_only_returns, for_tweets_returns.
Qed.

Lemma loop_body_returns num : returns (loop_body drv num).
Proof.
  unfold loop_body, update_counters.
  repeat returns_step;
    first [apply scan_tweets_returns
          | apply finish_iteration_returns, (handled_script drv Hdrv)].
Qed.

Lemma while_loop_returns fuel num : returns (while_loop drv fuel num).
Proof.
  induction fuel as [|fuel IH]; cbn [while_loop]; repeat returns_step;
    solve [apply loop_body_returns | exact IH].
Qed.

Lemma scrape_tweets_returns fuel identifier is_url num verbose :
  returns (scrape_tweets_upto drv fuel identifier is_url num verbose).
Proof.
  unfold scrape_tweets_upto, collect_and_return, collect, init_loop.
  apply returns_bind; [apply returns_call; intros w; eexists; apply (handled_get drv Hdrv)|].
  intros _. apply returns_bind.
  { apply returns_try; [|apply returns_ret].
    repeat raises_step. apply raises_only_call, (handled_wait drv Hdrv). }
  intros [|]; [apply returns_ret|].
  apply returns_bind; [apply returns_modify|]. intros _.
  apply returns_bind.
  { apply returns_try; [|apply returns_ret].
    repeat raises_step. apply raises_only_call, (handled_wait drv Hdrv). }
  intros [|]; [|apply returns_ret].
  repeat returns_step;
    first [apply returns_call, (handled_script drv Hdrv) | apply while_loop_returns].
Qed.

End Success.

Section Stops.
Context {W E : Type} (drv : Driver W E).
Implicit Types (s : state W).

(** The iteration in which [consecutive_failed_scrolls] reaches its limit
    ends the loop at once: nothing is scrolled after the scan. *)
Lemma stall_limit_stops num s n s1 fuel :
  below num s ->
  (scroll_count s < max_scroll_attempts)%nat ->
  S (consecutive_failed_scrolls s) = max_consecutive_failures ->
  scan_tweets drv num (set_scroll_count (S (scroll_count s)) s) = (Ok (Some n), s1) ->
  List.length (tweets s1) = n ->
  while_loop drv (S fuel) num s
  = (Ok (Broke BreakStalled),
     set_consecutive_failed_scrolls max_consecutive_failures
       (set_no_new_tweets_count (S (no_new_tweets_count s)) s1)).
Proof.
  intros Hlt Hroom Hcf Hscan Hn.
  pose proof (scan_tweets_outcome drv num (set_scroll_count (S (scroll_count s)) s))
    as Hout.
  rewrite Hscan in Hout. cbn [fst snd] in Hout.
  inversion Hout as [ | s1' Hrel _ Hbefore | ]; subst s1'. clear Hout.
  destruct Hrel as [_ _ _ Hnn Hcc _]. state_simpl.
  rewrite while_loop_eq.
  destruct (Z.ltb_spec (Z.of_nat (List.length (tweets s))) num) as [_|Hge];
    [|unfold below in Hlt; lia].
  destruct (Nat.ltb_spec (scroll_count s) max_scroll_attempts) as [_|Hfull]; [|lia].
  cbn [andb]. rewrite loop_body_eq, Hscan, update_counters_eq.
  rewrite Hn, Z.sub_diag. cbn [Z.eqb snd]. rewrite finish_iteration_eq. state_simpl.
  rewrite Hn, <- Hbefore.
  destruct (Z.leb_spec num (Z.of_nat (List.length (tweets s)))) as [Hle|_];
    [unfold below in Hlt; lia|].
  rewrite Hcc, Hcf, Hnn, Nat.leb_refl. reflexivity.
Qed.

Lemma scroll_limit_stops num s fuel :
  scroll_count s = max_scroll_attempts ->
  while_loop drv fuel num s = (Ok CondFalse, s).
Proof.
  intros Hsc. rewrite while_loop_eq, Hsc, Nat.ltb_irrefl, andb_false_r.
  reflexivity.
Qed.

(** C2 (amended). Bounded termination with partial success.  From the
    entry of [scrape_tweets], whatever the driver does: (1) the state in
    which the call ends has [scroll_count <= 50],
    [consecutive_failed_scrolls <= 8] and at most [max 0 num_tweets]
    collected texts; (2) a returned list is everything collected, so it has
    at most [num_tweets] items; (3) room for more than 50 iterations
    changes nothing, so the loop never runs more than 50; (4) when the loop
    ends, it is because the target is reached, or
    [consecutive_failed_scrolls = 8], or [scroll_count = 50], and the call
    then returns all collected texts as a list; (5) the loop stops as soon
    as [consecutive_failed_scrolls] reaches 8: an iteration entered with 7
    whose scan completes with nothing appended ends the loop there, with
    no scroll, by [BreakStalled] and not by an exception; (6) the loop
    runs no iteration once [scroll_count] is 50; (7) if every exception of
    the driver is one the scraper handles, the call returns: a stop of the
    loop is a result, never an error.  What is counted is the completed
    scans without a new text, not the iterations without one. *)
Theorem scrape_tweets_bounded identifier is_url num_tweets verbose w seen :
  let s0 := entry w seen in
  let run := scrape_tweets drv identifier is_url num_tweets verbose s0 in
  ((scroll_count run.2 <= max_scroll_attempts)%nat
   /\ (consecutive_failed_scrolls run.2 <= max_consecutive_failures)%nat
   /\ Z.of_nat (List.length (tweets run.2)) <= Z.max 0 num_tweets)
  /\ (forall l, run.1 = Ok (Some l) ->
        l = tweets run.2 /\ Z.of_nat (List.length l) <= Z.max 0 num_tweets)
  /\ (forall fuel, (max_scroll_attempts <= fuel)%nat ->
        scrape_tweets_upto drv fuel identifier is_url num_tweets verbose s0 = run)
  /\ (forall s,
        let s1 := set_seen_tweets ∅ (set_tweets [] s) in
        match collect drv max_scroll_attempts num_tweets s1 with
        | (Ok ex, s') =>
            stopped num_tweets ex s'
            /\ collect_and_return drv max_scroll_attempts num_tweets s1
               = (Ok (Some (tweets s')), s')
        | (Raise e, s') =>
            collect_and_return drv max_scroll_attempts num_tweets s1
            = (Raise e, s')
        end)
  /\ (forall s n s1 fuel,
        below num_tweets s ->
        (scroll_count s < max_scroll_attempts)%nat ->
        S (consecutive_failed_scrolls s) = max_consecutive_failures ->
        scan_tweets drv num_tweets (set_scroll_count (S (scroll_count s)) s)
        = (Ok (Some n), s1) ->
        List.length (tweets s1) = n ->
        while_loop drv (S fuel) num_tweets s
        = (Ok (Broke BreakStalled),
           set_consecutive_failed_scrolls max_consecutive_failures
             (set_no_new_tweets_count (S (no_new_tweets_count s)) s1)))
  /\ (forall s fuel,
        scroll_count s = max_scroll_attempts ->
        while_loop drv fuel num_tweets s = (Ok CondFalse, s))
  /\ (handled drv -> exists r, run.1 = Ok r).
Proof.
  intros s0 run.
  destruct (scrape_tweets_bounds drv identifier is_url num_tweets verbose w seen)
    as (H1 & H2 & H3 & H4).
  split; [exact H1|]. split; [exact H2|]. split; [exact H3|].
  split; [exact H4|]. split; [|split].
  - intros s n s1 fuel. apply stall_limit_stops.
  - intros s fuel. apply scroll_limit_stops.
  - intros Hdrv. apply scrape_tweets_returns, Hdrv.
Qed.

End Stops.

Lemma fixed_driver_handled r :
  match r with Ok _ => True | Raise e => is_stale e = true end ->
  handled (fixed_driver r).
Proof.
  intros Hr. split; cbn.
  - reflexivity.
  - intros [] w e [= <-]; reflexivity.
  - intros js w. now exists 0.
  - intros w e. destruct r as [els|e']; [discriminate|]. now intros [= <-].
  - intros el sel w e [= <-]. reflexivity.
  - intros el sel w e. discriminate.
  - intros el w e. discriminate.
  - intros el w e. discriminate.
Qed.

(** C2 on a page without posts: the session ends by the stall limit, and
    the call returns. *)
Lemma scrape_tweets_bounded_witness :
  exists r,
    (scrape_tweets (fixed_driver (Ok [])) "jack" false 10 false (entry tt ∅)).1
    = Ok r.
Proof.
  apply (scrape_tweets_bounded (fixed_driver (Ok [])) "jack" false 10 false tt ∅).
  apply fixed_driver_handled. exact I.
Defined.

(** C2, counterexample.  On a page whose posts always go stale the session
    runs 50 iterations, none of which appends anything, and
    [consecutive_failed_scrolls] is still 0 at the end: the iterations
    without a new item are not what the stall limit counts. *)
Lemma stale_session_never_stalls :
  (scrape_tweets (fixed_driver (Raise StaleElementReferenceException))
     "jack" false 10 false (entry tt ∅)).1 = Ok (Some [])
  /\ scroll_count
       (scrape_tweets (fixed_driver (Raise StaleElementReferenceException))
          "jack" false 10 false (entry tt ∅)).2 = 50%nat
  /\ consecutive_failed_scrolls
       (scrape_tweets (fixed_driver (Raise StaleElementReferenceException))
          "jack" false 10 false (entry tt ∅)).2 = 0%nat.
Proof. vm_compute. repeat split; reflexivity. Qed.

(** ** Two sessions on the same page *)

Section Simulation.
Context {W1 W2 : Type} (R : W1 -> W2 -> Prop).

Lemma sim_point {A} (m1 : M W1 A) (m2 : M W2 A) s1 s2 :
  sim R m1 m2 -> state_sim R s1 s2 -> sim_out R (m1 s1) (m2 s2).
Proof. intros H Hs. now apply H. Qed.

Lemma sim_ret {A} (a : A) : sim R (ret a) (ret a).
Proof. intros s1 s2 Hs. now split. Qed.

Lemma sim_bind {A B} (m1 : M W1 A) (m2 : M W2 A) (k1 : A -> M W1 B) (k2 : A -> M W2 B) :
  sim R m1 m2 -> (forall a, sim R (k1 a) (k2 a)) -> sim R (bind m1 k1) (bind m2 k2).
Proof.
  intros Hm Hk s1 s2 Hs. unfold bind. destruct (Hm s1 s2 Hs) as [Hr Hs'].
  destruct (m1 s1) as [[a|e] s1'], (m2 s2) as [[a'|e'] s2'];
    cbn [fst snd] in *; try discriminate.
  - injection Hr as <-. now apply Hk.
  - injection Hr as <-. split; [reflexivity | exact Hs'].
Qed.

Lemma sim_bind_post {A B} (P : A -> Prop) (m1 : M W1 A) (m2 : M W2 A)
    (k1 : A -> M W1 B) (k2 : A -> M W2 B) :
  sim R m1 m2 -> yields P m1 -> (forall a, P a -> sim R (k1 a) (k2 a)) ->
  sim R (bind m1 k1) (bind m2 k2).
Proof.
  intros Hm HP Hk s1 s2 Hs. unfold bind. destruct (Hm s1 s2 Hs) as [Hr Hs'].
  specialize (HP s1).
  destruct (m1 s1) as [[a|e] s1'], (m2 s2) as [[a'|e'] s2'];
    cbn [fst snd] in *; try discriminate.
  - injection Hr as <-. now apply Hk.
  - injection Hr as <-. split; [reflexivity | exact Hs'].
Qed.

Lemma sim_try {A} (m1 h1 : M W1 A) (m2 h2 : M W2 A) classes :
  sim R m1 m2 -> sim R h1 h2 ->
  sim R (try_except m1 classes h1) (try_except m2 classes h2).
Proof.
  intros Hm Hh s1 s2 Hs. unfold try_except. destruct (Hm s1 s2 Hs) as [Hr Hs'].
  destruct (m1 s1) as [[a|e] s1'], (m2 s2) as [[a'|e'] s2'];
    cbn [fst snd] in *; try discriminate.
  - split; [exact Hr | exact Hs'].
  - injection Hr as <-.
    destruct (classes e); [now apply Hh | split; [reflexivity | exact Hs']].
Qed.

Lemma state_sim_set_world s1 s2 w1 w2 :
  state_sim R s1 s2 -> R w1 w2 -> state_sim R (set_world w1 s1) (set_world w2 s2).
Proof. intros (_ & H) Hw. split; [exact Hw | exact H]. Qed.

Lemma sim_call {A} (op1 : W1 -> result A * W1) (op2 : W2 -> result A * W2) :
  (forall w1 w2, R w1 w2 -> same_answer R (op1 w1) (op2 w2)) ->
  sim R (call op1) (call op2).
Proof.
  intros H s1 s2 Hs. unfold call.
  destruct (H (world s1) (world s2)) as [Hr Hw]; [apply Hs|].
  destruct (op1 (world s1)) as [r1 w1], (op2 (world s2)) as [r2 w2].
  split; [exact Hr | now apply state_sim_set_world].
Qed.

Lemma sim_ask {A} (op1 : W1 -> A * W1) (op2 : W2 -> A * W2) :
  (forall w1 w2, R w1 w2 -> (op1 w1).1 = (op2 w2).1 /\ R (op1 w1).2 (op2 w2).2) ->
  sim R (ask op1) (ask op2).
Proof.
  intros H s1 s2 Hs. unfold ask.
  destruct (H (world s1) (world s2)) as [Hr Hw]; [apply Hs|].
  destruct (op1 (world s1)) as [r1 w1], (op2 (world s2)) as [r2 w2].
  cbn [fst snd] in *. subst r2.
  split; [reflexivity | now apply state_sim_set_world].
Qed.

Lemma sim_modify (f1 : state W1 -> state W1) (f2 : state W2 -> state W2) :
  (forall s1 s2, state_sim R s1 s2 -> state_sim R (f1 s1) (f2 s2)) ->
  sim R (modify f1) (modify f2).
Proof. intros H s1 s2 Hs. split; [reflexivity | now apply H]. Qed.

Lemma sim_read {A} (k1 : state W1 -> M W1 A) (k2 : state W2 -> M W2 A) :
  (forall s1 s2, state_sim R s1 s2 -> sim_out R (k1 s1 s1) (k2 s2 s2)) ->
  sim R (bind get_state k1) (bind get_state k2).
Proof. intros H s1 s2 Hs. now apply H. Qed.

End Simulation.

(** Opens two agreeing states: their fields become shared variables. *)
Ltac sim_open :=
  let s1 := fresh "s1" in
  let s2 := fresh "s2" in
  let Hs := fresh "Hs" in
  intros s1 s2 Hs; destruct s1, s2;
  destruct Hs as (? & ? & ? & ? & ? & ? & ?); state_simpl; subst.

Ltac sim_states :=
  sim_open; repeat split; state_simpl; try assumption; try reflexivity.

Ltac sim_close :=
  lazymatch goal with
  | |- sim_out ?R (?m1 ?s1) (?m2 ?s2) =>
      apply (sim_point R m1 m2 s1 s2);
      [ | repeat split; state_simpl; try assumption; try reflexivity ]
  end.

Ltac sim_step :=
  lazymatch goal with
  | |- sim _ (bind get_state _) (bind get_state _) =>
      apply sim_read; sim_open;
      repeat lazymatch goal with
      | |- sim_out _ ((if ?b then _ else _) _) ((if ?b then _ else _) _) =>
          destruct b
      end;
      sim_close
  | |- sim _ (bind _ _) (bind _ _) => apply sim_bind; [|intros ?]
  | |- sim _ (try_except _ _ _) (try_except _ _ _) => apply sim_try
  | |- sim _ (ret _) (ret _) => apply sim_ret
  | |- sim _ (modify _) (modify _) => apply sim_modify; sim_states
  | |- sim _ (if ?b then _ else _) (if ?b then _ else _) => destruct b
  | |- sim _ (match ?x with _ => _ end) (match ?x with _ => _ end) => destruct x
  end.

(** With a status link on every post, the first attempt of [get_tweet_id]
    finds the identity. *)
Lemma by_link_found {W E} (drv : Driver W E) (tweet_element : E) :
  linked drv ->
  yields (fun o : option string => o <> None)
    (try_except
       (tweet_link <- call (el_find_element drv tweet_element StatusLink) ;;
        href <- call (el_get_attribute_href drv tweet_link) ;;
        match href with
        | Some h =>
            if PyStr.truthy h then
              match Re.search status_re h with
              | Some (Some g1) => ret (Some g1)
              | _ => ret None
              end
            else ret None
        | None => ret None
        end)
       element_gone (ret None)).
Proof.
  intros Hl s. unfold try_except, bind, call.
  destruct (Hl tweet_element (world s)) as (a & w1 & h & w2 & g & H1 & H2 & Hg).
  rewrite H1. state_simpl. rewrite H2.
  destruct h as [|c h]; [discriminate|].
  cbn [PyStr.truthy]. rewrite Hg. cbn [fst ret]. discriminate.
Qed.

Section SamePage.
Context {W1 W2 E : Type} (R : W1 -> W2 -> Prop).
Context (drv1 : Driver W1 E) (drv2 : Driver W2 E).
Hypothesis Hpage : same_page R drv1 drv2.
Hypothesis Hids : same_draws R drv1 drv2 \/ (linked drv1 /\ linked drv2).

Lemma sim_sleep : sim R (sleep drv1) (sleep drv2).
Proof.
  intros s1 s2 Hs. split; [reflexivity|].
  apply state_sim_set_world; [exact Hs|]. apply (sp_sleep R drv1 drv2 Hpage), Hs.
Qed.

Ltac sim_env :=
  first
    [ apply sim_sleep
    | apply sim_call; intros ? ? ?;
      first [ apply (sp_get R drv1 drv2 Hpage)
            | apply (sp_wait R drv1 drv2 Hpage)
            | apply (sp_find_element R drv1 drv2 Hpage)
            | apply (sp_find_elements R drv1 drv2 Hpage)
            | apply (sp_script R drv1 drv2 Hpage)
            | apply (sp_el_find R drv1 drv2 Hpage)
            | apply (sp_el_finds R drv1 drv2 Hpage)
            | apply (sp_href R drv1 drv2 Hpage)
            | apply (sp_text R drv1 drv2 Hpage)
            | apply (sp_click R drv1 drv2 Hpage) ];
      assumption
    | apply sim_ask; intros ? ? ?;
      apply (sp_random_position R drv1 drv2 Hpage); assumption ].

Ltac sim_walk := repeat first [sim_step | sim_env].

Lemma sim_element_texts parts :
  sim R (element_texts drv1 parts) (element_texts drv2 parts).
Proof.
  induction parts as [|p parts IH]; cbn [element_texts]; sim_walk. exact IH.
Qed.

Lemma sim_get_tweet_id tweet_element :
  sim R (get_tweet_id drv1 tweet_element) (get_tweet_id drv2 tweet_element).
Proof.
  unfold get_tweet_id. destruct Hids as [Hdraws|[Hl1 Hl2]].
  - sim_walk; try apply sim_element_texts.
    apply sim_ask. intros w1 w2 Hw.
    split; [now apply Hdraws | now apply (sp_last_resort R drv1 drv2 Hpage)].
  - apply (sim_bind_post R (fun o : option string => o <> None)).
    + sim_walk.
    + now apply by_link_found.
    + intros [tweet_id|] Hsome; [sim_step | congruence].
Qed.

Lemma sim_perform_scroll d : sim R (perform_scroll drv1 d) (perform_scroll drv2 d).
Proof. unfold perform_scroll. sim_walk. Qed.

Lemma sim_process_tweet num tweet :
  sim R (process_tweet drv1 num tweet) (process_tweet drv2 num tweet).
Proof.
  unfold process_tweet. apply sim_try; [|sim_step].
  apply sim_bind; [apply sim_get_tweet_id|]. intros tweet_id.
  apply sim_read. sim_open.
  destruct (bool_decide (tweet_id ∈ _)); sim_close; [sim_step|].
  sim_walk; try apply sim_element_texts.
Qed.

Lemma sim_for_tweets num els :
  sim R (for_tweets drv1 num els) (for_tweets drv2 num els).
Proof.
  induction els as [|el els IH]; cbn [for_tweets]; [sim_step|].
  apply sim_bind; [apply sim_process_tweet|].
  intros [|]; [sim_step | exact IH].
Qed.

Lemma sim_scan_tweets num : sim R (scan_tweets drv1 num) (scan_tweets drv2 num).
Proof.
  unfold scan_tweets. apply sim_try; [|sim_walk].
  apply sim_bind; [sim_env|]. intros els.
  apply sim_read. sim_open. sim_close.
  apply sim_bind; [apply sim_for_tweets | intros ?; sim_step].
Qed.

Lemma sim_update_counters n : sim R (update_counters n) (update_counters n).
Proof. unfold update_counters. sim_walk. Qed.

Lemma sim_click_buttons buttons :
  sim R (click_buttons drv1 buttons) (click_buttons drv2 buttons).
Proof.
  induction buttons as [|b buttons IH]; cbn [click_buttons]; sim_walk. exact IH.
Qed.

Lemma sim_alternative_strategy :
  sim R (alternative_strategy drv1) (alternative_strategy drv2).
Proof. unfold alternative_strategy. sim_walk. apply sim_click_buttons. Qed.

Lemma sim_regular_strategy : sim R (regular_strategy drv1) (regular_strategy drv2).
Proof. unfold regular_strategy. sim_walk. apply sim_perform_scroll. Qed.

Lemma sim_check_page_height :
  sim R (check_page_height drv1) (check_page_height drv2).
Proof.
  unfold check_page_height. apply sim_bind; [sim_env|]. intros new_height.
  apply sim_read. sim_open. sim_close. sim_walk.
Qed.

Lemma sim_finish_iteration num :
  sim R (finish_iteration drv1 num) (finish_iteration drv2 num).
Proof.
  unfold finish_iteration. apply sim_read. sim_open.
  repeat lazymatch goal with
  | |- sim_out _ ((if ?b then _ else _) _) ((if ?b then _ else _) _) => destruct b
  end; sim_close; try sim_step.
  - destruct (Nat.leb _ _);
      [apply sim_alternative_strategy | apply sim_regular_strategy].
  - apply sim_bind; [apply sim_check_page_height | intros _; sim_step].
Qed.

Lemma sim_loop_body num : sim R (loop_body drv1 num) (loop_body drv2 num).
Proof.
  unfold loop_body. apply sim_bind; [sim_step|]. intros _.
  apply sim_bind; [apply sim_scan_tweets|]. intros [before|]; [|sim_step].
  apply sim_read. sim_open. sim_close.
  apply sim_bind; [apply sim_update_counters | intros _; apply sim_finish_iteration].
Qed.

Lemma sim_while_loop fuel num :
  sim R (while_loop drv1 fuel num) (while_loop drv2 fuel num).
Proof.
  induction fuel as [|fuel IH]; cbn [while_loop]; apply sim_read; sim_open;
    (destruct (_ && _); sim_close; [|sim_step]).
  - sim_step.
  - apply sim_bind; [apply sim_loop_body|].
    intros [| |]; first [exact IH | sim_step].
Qed.

End SamePage.

Section Determinism.
Context {W1 W2 E : Type} (R : W1 -> W2 -> Prop).
Context (drv1 : Driver W1 E) (drv2 : Driver W2 E).

(** C9 (amended). Determinism modulo jitter.  Two sessions on drivers that
    show the same page, started in related worlds, return the same value
    (the same ordered list, or [None] or the same exception for both) and
    end in related worlds, whatever the scraper held before either of
    them and however long the pauses of either are, provided the
    last-resort identities drawn from the clock and the random generator
    are the same for both, or every post has a status link with a number,
    so that none is drawn. *)
Theorem scrape_tweets_deterministic identifier is_url num_tweets verbose w1 w2 s1 s2 :
  same_page R drv1 drv2 ->
  same_draws R drv1 drv2 \/ (linked drv1 /\ linked drv2) ->
  R w1 w2 ->
  let run1 := scrape_tweets drv1 identifier is_url num_tweets verbose (set_world w1 s1) in
  let run2 := scrape_tweets drv2 identifier is_url num_tweets verbose (set_world w2 s2) in
  run1.1 = run2.1 /\ R (world run1.2) (world run2.2).
Proof.
  intros Hpage Hids Hw run1 run2. subst run1 run2. unfold scrape_tweets.
  rewrite !scrape_tweets_upto_eq. state_simpl.
  pose proof (sp_get R drv1 drv2 Hpage (get_profile_url identifier is_url) w1 w2 Hw)
    as [Hr Hw'].
  destruct (drv_get drv1 _ w1) as [[[]|e1] w1a], (drv_get drv2 _ w2) as [[[]|e2] w2a];
    cbn [fst snd] in *; try discriminate;
    [|split; [cbn [fst]; congruence | state_simpl; assumption]].
  clear Hr Hw. rename Hw' into Hw.
  pose proof (sp_wait R drv1 drv2 Hpage ProtectedSpan w1a w2a Hw) as [Hr Hw'].
  destruct (drv_wait_presence drv1 ProtectedSpan w1a) as [[el1|e1] w1b],
           (drv_wait_presence drv2 ProtectedSpan w2a) as [[el2|e2] w2b];
    cbn [fst snd] in *; try discriminate;
    [split; [reflexivity | state_simpl; assumption]|].
  injection Hr as <-. clear Hw. rename Hw' into Hw.
  destruct (is_timeout e1); [|split; [reflexivity | state_simpl; assumption]].
  pose proof (sp_wait R drv1 drv2 Hpage TweetArticle w1b w2b Hw) as [Hr Hw'].
  destruct (drv_wait_presence drv1 TweetArticle w1b) as [[el1|e1'] w1c],
           (drv_wait_presence drv2 TweetArticle w2b) as [[el2|e2'] w2c];
    cbn [fst snd] in *; try discriminate.
  2:{ injection Hr as <-.
      destruct (is_timeout e1'); (split; [reflexivity | state_simpl; assumption]). }
  clear Hr Hw. rename Hw' into Hw.
  rewrite !collect_and_return_eq. state_simpl.
  pose proof (sp_script R drv1 drv2 Hpage ScrollHeight w1c w2c Hw) as [Hr Hw'].
  destruct (drv_execute_script drv1 ScrollHeight w1c) as [[h1|e1'] w1d],
           (drv_execute_script drv2 ScrollHeight w2c) as [[h2|e2'] w2d];
    cbn [fst snd] in *; try discriminate;
    [|split; [cbn [fst]; congruence | state_simpl; assumption]].
  injection Hr as <-.
  destruct (sim_while_loop R drv1 drv2 Hpage Hids max_scroll_attempts num_tweets
              (mkState w1d ∅ [] h1 O O O) (mkState w2d ∅ [] h1 O O O))
    as [Hr' Hs'].
  { repeat split. exact Hw'. }
  destruct (while_loop drv1 _ _ _) as [[ex1|e1'] s1'],
           (while_loop drv2 _ _ _) as [[ex2|e2'] s2'];
    cbn [fst snd] in *; try discriminate.
  - destruct Hs' as (Hw'' & _ & Htw & _). rewrite Htw.
    split; [reflexivity | exact Hw''].
  - split; [congruence | apply Hs'].
Qed.

End Determinism.

Lemma flaky_same_page p q : same_page same_but_clock (flaky p) (flaky q).
Proof.
  split; try (intros ? [[b1 c1] d1] [[b2 c2] d2] [Hb Hd]);
    try (intros ? ? [[b1 c1] d1] [[b2 c2] d2] [Hb Hd]);
    try (intros [[b1 c1] d1] [[b2 c2] d2] [Hb Hd]);
    cbn in *; subst; try (repeat split; reflexivity).
  - destruct sel; repeat split; reflexivity.
  - destruct d2; repeat split; reflexivity.
Qed.

Lemma flaky_same_draws p q : same_draws same_but_clock (flaky p) (flaky q).
Proof.
  intros [[b1 c1] d1] [[b2 c2] d2] [Hb Hd]. cbn in *. subst.
  destruct d2; reflexivity.
Qed.

(** C9 on a page that needs the last resort: the same draws, clocks that
    start and run apart. *)
Lemma scrape_tweets_deterministic_witness :
  (scrape_tweets (flaky 1) "jack" false 2 false
     (entry (false, 0%nat, ["0.0_1000"; "0.0_1001"]%string) ∅)).1
  = (scrape_tweets (flaky 5) "jack" false 2 false
       (entry (false, 7%nat, ["0.0_1000"; "0.0_1001"]%string) ∅)).1.
Proof.
  destruct (scrape_tweets_deterministic same_but_clock (flaky 1) (flaky 5)
              "jack" false 2 false
              (false, 0%nat, ["0.0_1000"; "0.0_1001"]%string)
              (false, 7%nat, ["0.0_1000"; "0.0_1001"]%string)
              (entry (false, 0%nat, []) ∅) (entry (false, 7%nat, []) ∅)
              (flaky_same_page 1 5) (or_introl (flaky_same_draws 1 5))
              (conj eq_refl eq_refl)) as [H _].
  exact H.
Defined.

(** C9, counterexample.  The same page, no pause at all, and two sessions
    that differ only in what the clock and the random generator give for
    the last-resort identity: with two different draws the post is taken
    for new at its second rendering and collected twice, with the same
    draw twice it is collected once. *)
Lemma last_resort_draws_matter :
  (scrape_tweets (flaky 0) "jack" false 2 false
     (entry (false, 0%nat, ["0.0_1000"; "0.0_1001"]%string) ∅)).1
  = Ok (Some ["hello"; "hello"]%string)
  /\ (scrape_tweets (flaky 0) "jack" false 2 false
        (entry (false, 0%nat, ["0.0_1000"; "0.0_1000"]%string) ∅)).1
     = Ok (Some ["hello"]%string).
Proof. vm_compute. split; reflexivity. Qed.

(** ** The request handlers *)

Section HandlerFacts.
Context {W E : Type} (host : Host W E).








End HandlerFacts.

(** A request served on the scripted host: the two posts of the feed are
    returned, and the log of the host ends with the quit. *)
Example get_tweets_by_username_served :
  let run := get_tweets_by_username mock_host "jack" 10 drying_feed in
  run.1 = mkResponse 200 (TweetsBody "jack" None 2 ["a"; "b"]%string)
  /\ last (Mock.log run.2) = Some (Mock.EvGet "quit").
Proof. vm_compute. split; reflexivity. Qed.
